(** * A MIDI recorder's file writer: [encode_var_len] and [write_midi_file]

    Shallow embedding of [master.py].  Python integers are [Z], the
    lists of integer byte values returned by [encode_var_len] are
    [list Z], [bytes]/[bytearray] objects are [list byte], Python floats
    are IEEE 754 binary64 values ([spec_float] at precision 53 and
    maximal exponent 1024), and a raised exception is the [Raise] branch
    of [result]. *)

From Stdlib Require Import ZArith List Lia Bool.
From Stdlib Require Import Strings.String Strings.Ascii Strings.Byte.
From Stdlib Require Import Sorting.Sorted Sorting.Permutation.
From Stdlib Require Import Floats.SpecFloat.
From Equations Require Import Equations.
Import ListNotations.

Local Open Scope Z_scope.

(** ** Exceptions *)

Inductive exn : Type :=
| ValueError      (* bytes() on an int outside range(256); round(nan) *)
| OverflowError   (* round(inf); int too large to convert to float *)
| StructError.    (* struct.pack on a value outside the field's range *)

Inductive result (A : Type) : Type :=
| Ok (a : A)
| Raise (e : exn).

Arguments Ok {A} a.
Arguments Raise {A} e.

Definition bind {A B : Type} (r : result A) (k : A -> result B) : result B :=
  match r with
  | Ok a => k a
  | Raise e => Raise e
  end.

Notation "x <- r ;; k" := (bind r (fun x => k))
  (at level 61, r at next level, right associativity).

Definition raises {A : Type} (r : result A) : Prop := exists e, r = Raise e.

(** ** The Python built-ins the program uses *)

Module Py.

(** *** Floats: IEEE 754 binary64 *)

Definition prec : Z := 53.
Definition emax : Z := 1024.

Definition float : Type := spec_float.

(** Every Python float is a canonical binary64 value. *)
Definition is_float64 (x : float) : Prop := valid_binary prec emax x = true.

Definition is_finite (x : float) : bool :=
  match x with
  | S754_zero _ | S754_finite _ _ _ => true
  | S754_infinity _ | S754_nan => false
  end.

Definition is_nan (x : float) : bool :=
  match x with
  | S754_nan => true
  | _ => false
  end.

(** The float [m * 2^e], correctly rounded: float literals. *)
Definition dyadic (m e : Z) : float := binary_normalize prec emax m e false.

Definition fzero : float := S754_zero false.      (* 0.0 *)

Definition fsub : float -> float -> float := SFsub prec emax.
Definition fmul : float -> float -> float := SFmul prec emax.
Definition flt : float -> float -> bool := SFltb.
Definition fle : float -> float -> bool := SFleb.
Definition feq : float -> float -> bool := SFeqb.

(** [int] to [float], as done for the [int] operand of [float * int]:
    correctly rounded, OverflowError when out of range. *)
Definition float_of_int (n : Z) : result float :=
  match binary_normalize prec emax n 0 false with
  | S754_infinity _ => Raise OverflowError
  | f => Ok f
  end.

(** [float * int]. *)
Definition fmul_int (x : float) (n : Z) : result float :=
  y <- float_of_int n ;; Ok (fmul x y).

(** The integer nearest to [m * 2^e], ties to the even one. *)
Definition round_half_even (m : positive) (e : Z) : Z :=
  if 0 <=? e then Z.pos m * 2 ^ e
  else
    let d := 2 ^ (- e) in
    let q := Z.pos m / d in
    let r := Z.pos m mod d in
    match 2 * r ?= d with
    | Lt => q
    | Gt => q + 1
    | Eq => if Z.even q then q else q + 1
    end.

(** [round(x)] with one argument: an [int], ties to even; ValueError on
    a NaN and OverflowError on an infinity. *)
Definition round (x : float) : result Z :=
  match x with
  | S754_nan => Raise ValueError
  | S754_infinity _ => Raise OverflowError
  | S754_zero _ => Ok 0
  | S754_finite s m e => Ok (cond_Zopp s (round_half_even m e))
  end.

(** [x] is a zero, a finite float or an infinity of sign [s] ([true]
    is the minus sign); not a NaN. *)
Definition sign_class (s : bool) (x : float) : Prop :=
  match x with
  | S754_zero s' | S754_infinity s' | S754_finite s' _ _ => s' = s
  | S754_nan => False
  end.

(** Zero of either sign, or above zero. *)
Definition not_negative (x : float) : Prop :=
  match x with
  | S754_zero _ => True
  | S754_infinity s | S754_finite s _ _ => s = false
  | S754_nan => False
  end.

(** *** Bytes *)

Definition byte_of_Z (z : Z) : byte :=
  match Byte.of_N (Z.to_N (z mod 256)) with
  | Some b => b
  | None => x00
  end.

Definition Z_of_byte (b : byte) : Z := Z.of_N (Byte.to_N b).

(** [bytes(l)] for a list of ints: ValueError unless every element is
    in [range(256)]. *)
Fixpoint bytes (l : list Z) : result (list byte) :=
  match l with
  | [] => Ok []
  | z :: l' =>
      if (0 <=? z) && (z <? 256)
      then bs <- bytes l' ;; Ok (byte_of_Z z :: bs)
      else Raise ValueError
  end.

(** The [w] low-order bytes of [n], most significant first. *)
Fixpoint be_bytes (w : nat) (n : Z) : list byte :=
  match w with
  | O => []
  | S w' => be_bytes w' (n / 256) ++ [byte_of_Z n]
  end.

(** The value of a byte string read as a big-endian unsigned integer. *)
Definition be_value (bs : list byte) : Z :=
  fold_left (fun acc b => acc * 256 + Z_of_byte b) bs 0.

(** [struct.pack] of one big-endian unsigned field of [w] bytes
    ([">H"] is [w = 2], [">I"] is [w = 4]): struct.error when the value
    does not fit. *)
Definition pack_uint (w : nat) (n : Z) : result (list byte) :=
  if (0 <=? n) && (n <? 256 ^ Z.of_nat w)
  then Ok (be_bytes w n)
  else Raise StructError.

End Py.

(** ** The variable-length quantity encoder *)

(** The [while n > 127] loop of [encode_var_len]: each round shifts [n]
    right by seven bits and inserts the next group, continuation bit
    set, at the front of [bytes_list]. *)
Equations? encode_loop (n : Z) (bytes_list : list Z) : list Z
  by wf (Z.to_nat (Z.log2 n)) lt :=
  encode_loop n bytes_list with Z_gt_dec n 127 := {
    | left _ =>
        encode_loop (Z.shiftr n 7)
          (Z.lor (Z.land (Z.shiftr n 7) 127) 128 :: bytes_list)
    | right _ => bytes_list }.
Proof.
  rewrite Z.log2_shiftr by lia.
  assert (7 <= Z.log2 n) by (apply Z.log2_le_pow2; lia).
  lia.
Qed.

Definition encode_var_len (n : Z) : list Z :=
  encode_loop n [Z.land n 127].

(** The body of [encode_var_len] has no [raise], and [&], [>>], [|] and
    [>] are total on Python integers: a call always returns. *)
Definition call_encode_var_len (n : Z) : result (list Z) :=
  Ok (encode_var_len n).

(** The decoder, which the program does not have, written from the
    specification's words: each byte contributes its low seven bits,
    most significant group first, until a byte whose 0x80 bit is clear. *)
Fixpoint decode_from (acc : Z) (bs : list Z) : option (Z * list Z) :=
  match bs with
  | [] => None
  | b :: rest =>
      let acc' := acc * 128 + Z.land b 127 in
      if Z.land b 128 =? 0 then Some (acc', rest) else decode_from acc' rest
  end.

Definition decode_var_len (bs : list Z) : option (Z * list Z) :=
  decode_from 0 bs.

(** ** Events and the recorder's world *)

(** One recorded event: [(timestamp, [status, data1, data2])]. *)
Definition event : Type := (Py.float * list Z)%type.

Definition timestamp_of (ev : event) : Py.float := fst ev.

(** [list.sort(key=...)]: the stable sort, comparing keys with [<] only.
    An element goes in front of the first one that is not smaller, so
    elements with equal keys keep their order.  This stands for
    [list.sort] on keys that [<] orders.  With a NaN among the keys
    Python promises no particular order, and what it returns need not
    be what this function returns (both leave alone a list in which no
    element is smaller than the one before it, and both return a
    permutation): the statements below about the order that sorting
    gives assume there is no NaN, or a call that has returned, which
    had only finite timestamps. *)
Section Sort.
Context {A K : Type}.
Variable key : A -> K.
Variable lt : K -> K -> bool.

Fixpoint insert (x : A) (l : list A) : list A :=
  match l with
  | [] => [x]
  | y :: l' => if lt (key y) (key x) then y :: insert x l' else x :: y :: l'
  end.

Fixpoint list_sort (l : list A) : list A :=
  match l with
  | [] => []
  | x :: l' => insert x (list_sort l')
  end.

(** [y] may stand before [z]: the key of [z] is not smaller. *)
Definition not_after (y z : A) : Prop := lt (key z) (key y) = false.
End Sort.

(** [events.sort(key=lambda x: x[0])] *)
Definition sort_events (events : list event) : list event :=
  list_sort timestamp_of Py.flt events.

(** What the call can change: the list object that [events] names,
    which the caller still holds afterwards, and the files on disk. *)
Record world : Type := mkWorld {
  events_obj : list event;
  files : string -> option (list byte)
}.

Definition set_events (l : list event) (w : world) : world :=
  mkWorld l (files w).

Definition write_file (name : string) (content : list byte) (w : world)
  : world :=
  mkWorld (events_obj w)
    (fun f => if String.eqb f name then Some content else files w f).

(** ** [write_midi_file] *)

Definition MThd : list byte := [x4d; x54; x68; x64].   (* b'MThd' *)
Definition MTrk : list byte := [x4d; x54; x72; x6b].   (* b'MTrk' *)
Definition end_of_track : list byte := [x00; xff; x2f; x00].

(** The header chunk (lines 44-47). *)
Definition build_header (division : Z) : result (list byte) :=
  len <- Py.pack_uint 4 6 ;;
  fmt <- Py.pack_uint 2 0 ;;
  ntrk <- Py.pack_uint 2 1 ;;
  dv <- Py.pack_uint 2 division ;;
  Ok (MThd ++ len ++ fmt ++ ntrk ++ dv).

(** Lines 61 and 64: the gap to the previous event, in ticks. *)
Definition delta_ticks (ticks_per_second : Z) (last_time timestamp : Py.float)
  : result Z :=
  let delta_time := Py.fsub timestamp last_time in
  x <- Py.fmul_int delta_time ticks_per_second ;;
  Py.round x.

(** The [for timestamp, data in events] loop (lines 59-69), threading
    [track] and [last_time]. *)
Fixpoint track_loop (ticks_per_second : Z) (events : list event)
    (track : list byte) (last_time : Py.float) : result (list byte) :=
  match events with
  | [] => Ok track
  | (timestamp, data) :: rest =>
      ticks <- delta_ticks ticks_per_second last_time timestamp ;;
      let var_len := encode_var_len ticks in
      b1 <- Py.bytes var_len ;;
      b2 <- Py.bytes data ;;
      track_loop ticks_per_second rest (track ++ b1 ++ b2) timestamp
  end.

(** Line 57: 120 beats per minute, so two quarter notes a second. *)
Definition ticks_per_second (division : Z) : Z := division * 2.

(** The track body (lines 50-72): the events, then the end-of-track
    meta event. *)
Definition build_track (events : list event) (division : Z)
  : result (list byte) :=
  track <- track_loop (ticks_per_second division) events [] Py.fzero ;;
  Ok (track ++ end_of_track).

(** The track chunk (lines 75-79). *)
Definition build_track_chunk (track : list byte) : result (list byte) :=
  len <- Py.pack_uint 4 (Z.of_nat (List.length track)) ;;
  Ok (MTrk ++ len ++ track).

(** Everything between the sort and the [open]: the bytes of the file. *)
Definition midi_bytes (events : list event) (division : Z)
  : result (list byte) :=
  header <- build_header division ;;
  track <- build_track events division ;;
  track_chunk <- build_track_chunk track ;;
  Ok (header ++ track_chunk).

(** [write_midi_file(filename, events, division)], where [events] is the
    list object of the world.  The list is sorted in place first, so it
    stays sorted when a later statement raises; the file is written last
    (the file system is taken to accept the write). *)
Definition write_midi_file (filename : string) (division : Z) (w : world)
  : result unit * world :=
  let w1 := set_events (sort_events (events_obj w)) w in
  match midi_bytes (events_obj w1) division with
  | Raise e => (Raise e, w1)
  | Ok content => (Ok tt, write_file filename content w1)
  end.

(** The per-event deltas of a timeline, [last_time] being the time of
    the event before it: the values [ticks] takes in the loop. *)
Fixpoint tick_deltas (ticks_per_second : Z) (last_time : Py.float)
    (events : list event) : list (result Z) :=
  match events with
  | [] => []
  | (timestamp, _) :: rest =>
      delta_ticks ticks_per_second last_time timestamp
      :: tick_deltas ticks_per_second timestamp rest
  end.

(** What one event adds to the track: its delta as a variable-length
    quantity, then its data bytes. *)
Definition event_bytes (ticks : Z) (data : list Z) : list byte :=
  map Py.byte_of_Z (encode_var_len ticks) ++ map Py.byte_of_Z data.

Fixpoint track_bytes (ticks : list Z) (events : list event) : list byte :=
  match ticks, events with
  | n :: ticks', (_, data) :: events' =>
      event_bytes n data ++ track_bytes ticks' events'
  | _, _ => []
  end.

(** A delta that is a value is not negative; a delta that is not a
    value is the OverflowError of a gap too large for a float. *)
Definition delta_ok (r : result Z) : Prop :=
  match r with
  | Ok n => 0 <= n
  | Raise e => e = OverflowError
  end.

(** A timestamp the recorder can produce from a clock that does not run
    backwards: a finite binary64 value, not below zero. *)
Definition time_ok (t : Py.float) : Prop :=
  Py.is_float64 t /\ Py.is_finite t = true /\ Py.fle Py.fzero t = true.

(** [x] is not later than [y]. *)
Definition ts_le (x y : event) : Prop :=
  Py.fle (timestamp_of x) (timestamp_of y) = true.

Definition no_nan (ev : event) : Prop := Py.is_nan (timestamp_of ev) = false.

(** [ev] is at the time [t], as [==] has it. *)
Definition at_time (t : Py.float) (ev : event) : bool :=
  Py.feq (timestamp_of ev) t.

(** The fourteen bytes of the header chunk. *)
Definition header_bytes (division : Z) : list byte :=
  [x4d; x54; x68; x64; x00; x00; x00; x06; x00; x00; x00; x01;
   Py.byte_of_Z (division / 256); Py.byte_of_Z division].

(** A world for the examples: one note-on half a second in, nothing on
    disk. *)
Definition half_second : Py.float := Py.dyadic 1 (-1).          (* 0.5 *)

Definition one_note : list event := [(half_second, [0x90; 0x40; 0x7F])].

Definition no_files : string -> option (list byte) := fun _ => None.

(** No two events of the list are at the same time (as [==] has it). *)
Fixpoint distinct_times (events : list event) : bool :=
  match events with
  | [] => true
  | x :: rest =>
      forallb (fun y => negb (Py.feq (timestamp_of x) (timestamp_of y))) rest
      && distinct_times rest
  end.

(** ** Reading a track back *)

(** A reader of the track, which the program does not have, written
    from the layout the loop produces: [k] times a variable-length
    delta and three bytes.  It returns the events read and the bytes
    left. *)
Fixpoint parse_events (k : nat) (bs : list Z)
  : option (list (Z * list Z) * list Z) :=
  match k with
  | O => Some ([], bs)
  | S k' =>
      match decode_var_len bs with
      | Some (delta, d1 :: d2 :: d3 :: rest) =>
          match parse_events k' rest with
          | Some (evs, rest') => Some ((delta, [d1; d2; d3]) :: evs, rest')
          | None => None
          end
      | _ => None
      end
  end.

(** ** [make_output_filename] *)

(** What [datetime.datetime.now()] returns, as far as the format
    [%Y%m%d_%H%M%S] reads it. *)
Record datetime : Type := mkDatetime {
  year : Z; month : Z; day : Z; hour : Z; minute : Z; second : Z
}.

(** The fields of a [datetime] are in these ranges; a year below 1000,
    which [%Y] does not pad the same way on every platform, is left
    out. *)
Definition datetime_ok (dt : datetime) : Prop :=
  1000 <= year dt <= 9999 /\ 1 <= month dt <= 12 /\ 1 <= day dt <= 31 /\
  0 <= hour dt <= 23 /\ 0 <= minute dt <= 59 /\ 0 <= second dt <= 59.

(** The decimal digit of the units of [d]. *)
Definition digit (d : Z) : ascii := ascii_of_N (48 + Z.to_N (d mod 10)).

(** [%m], [%d], [%H], [%M], [%S]: two digits, zero-padded. *)
Definition pad2 (n : Z) : string :=
  String (digit (n / 10)) (String (digit n) EmptyString).

(** [%Y]: four digits. *)
Definition pad4 (n : Z) : string :=
  String (digit (n / 1000)) (String (digit (n / 100)) (pad2 n)).

(** [now.strftime("%Y%m%d_%H%M%S")] *)
Definition strftime_stamp (now : datetime) : string :=
  (pad4 (year now) ++ pad2 (month now) ++ pad2 (day now) ++ "_"
   ++ pad2 (hour now) ++ pad2 (minute now) ++ pad2 (second now))%string.

(** [make_output_filename(prefix, extension)], [now] being what the
    clock reads during the call. *)
Definition make_output_filename (prefix extension : string) (now : datetime)
  : string :=
  let timestamp := strftime_stamp now in
  (prefix ++ "_" ++ timestamp ++ extension)%string.

(** ** [main] *)

(** The window events the loop looks at. *)
Inductive pg_event : Type :=
| QUIT
| KEYDOWN (key : Z)
| OTHER.

Definition K_ESCAPE : Z := 27.

(** One item of [midi_input.read(10)]:
    [([status, data1, data2, data3], timestamp)]. *)
Definition midi_item : Type := (list Z * Z)%type.

(** What one round of the loop gets from outside: the window events of
    [pygame.event.get()], and, when [midi_input.poll()] is true, the
    items of [midi_input.read(10)] and the [time.time()] read after it. *)
Record frame : Type := mkFrame {
  window_events : list pg_event;
  pending : option (list midi_item * Py.float)
}.

(** Lines 119-124: [running] after the window events of one round. *)
Definition after_window_events (evs : list pg_event) (running : bool) : bool :=
  fold_left
    (fun r e =>
       match e with
       | QUIT => false
       | KEYDOWN key => if key =? K_ESCAPE then false else r
       | OTHER => r
       end)
    evs running.

(** Lines 127-136: the events one round appends to [recorded_events]. *)
Definition drained (start_time : Py.float) (f : frame) : list event :=
  match pending f with
  | None => []
  | Some (midi_events, current_time) =>
      map (fun event_item : midi_item =>
             let event_data := firstn 3 (fst event_item) in
             let event_timestamp := Py.fsub current_time start_time in
             (event_timestamp, event_data))
          midi_events
  end.

(** The [while running] loop (lines 117-141) over the rounds the outside
    world provides: [running], [recorded_events] and the rounds not
    entered when the loop stops or the rounds run out. *)
Fixpoint capture_loop (start_time : Py.float) (frames : list frame)
    (running : bool) (recorded_events : list event)
  : bool * list event * list frame :=
  match frames with
  | [] => (running, recorded_events, [])
  | f :: rest =>
      if running then
        let running' := after_window_events (window_events f) running in
        capture_loop start_time rest running'
          (recorded_events ++ drained start_time f)
      else (running, recorded_events, frames)
  end.

(** What [main] has to do with the outside world. *)
Record environment : Type := mkEnvironment {
  input_id : Z;                      (* pygame.midi.get_default_input_id() *)
  start_time : Py.float;             (* the first time.time() *)
  frames : list frame;               (* the rounds of the loop *)
  end_clock : datetime;              (* datetime.now() when the name is made *)
  disk : string -> option (list byte)
}.

Inductive main_outcome : Type :=
| NoDevice                                   (* line 97 and return *)
| Capturing (recorded_events : list event)   (* the loop has not stopped *)
| NoEvents                                   (* line 152 *)
| Saved (filename : string) (r : result unit) (w : world).   (* line 150 *)

(** [main()].  The calls that only drive the window and the device
    ([pygame.init], [set_mode], [fill], [flip], [tick], [close],
    [quit]) and the [print]s pass no data to the rest and are left out;
    opening the device and the window is taken to succeed. *)
Definition main (env : environment) : main_outcome :=
  if input_id env =? -1 then NoDevice
  else
    let '(running, recorded_events, _) :=
      capture_loop (start_time env) (frames env) true [] in
    if running then Capturing recorded_events
    else
      match recorded_events with
      | [] => NoEvents
      | _ :: _ =>
          let filename :=
            make_output_filename "recording" ".mid" (end_clock env) in
          let (r, w) :=
            write_midi_file filename 96 (mkWorld recorded_events (disk env)) in
          Saved filename r w
      end.

(** A round in which the window is closed or ESC is pressed. *)
Definition stops (f : frame) : bool :=
  existsb
    (fun e =>
       match e with
       | QUIT => true
       | KEYDOWN key => key =? K_ESCAPE
       | OTHER => false
       end)
    (window_events f).

(** * Properties *)

Section VLQ_facts.

(** *** Bit-level facts *)

Lemma land_127 (n : Z) : Z.land n 127 = n mod 128.
Proof. change 127 with (Z.ones 7). now rewrite Z.land_ones by lia. Qed.

Lemma shiftr_7 (n : Z) : Z.shiftr n 7 = n / 128.
Proof. now rewrite Z.shiftr_div_pow2 by lia. Qed.

Lemma land_128_small (x : Z) : 0 <= x < 128 -> Z.land x 128 = 0.
Proof.
  intros Hx. apply Z.bits_inj'. intros i Hi.
  rewrite Z.land_spec, Z.bits_0.
  change 128 with (2 ^ 7). rewrite Z.pow2_bits_eqb by lia.
  destruct (Z.eqb_spec 7 i) as [<- | Hne].
  - rewrite andb_true_r.
    destruct (Z.eq_dec x 0) as [-> | Hx0]; [reflexivity |].
    apply Z.bits_above_log2; [lia |].
    apply Z.log2_lt_pow2; lia.
  - apply andb_false_r.
Qed.

Lemma lor_128_small (x : Z) : 0 <= x < 128 -> Z.lor x 128 = x + 128.
Proof.
  intros Hx. pose proof (land_128_small x Hx) as H0.
  rewrite <- (Z.lxor_lor _ _ H0). symmetry. now apply Z.add_nocarry_lxor.
Qed.

Lemma land_127_cont (x : Z) : 0 <= x < 128 -> Z.land (Z.lor x 128) 127 = x.
Proof.
  intros Hx. rewrite lor_128_small, land_127 by assumption.
  rewrite <- (Z.mod_small x 128) at 2 by lia.
  replace (x + 128) with (x + 1 * 128) by lia. apply Z.mod_add. lia.
Qed.

Lemma land_128_cont (x : Z) : 0 <= x < 128 -> Z.land (Z.lor x 128) 128 = 128.
Proof.
  intros Hx. rewrite Z.land_lor_distr_l, land_128_small by assumption.
  reflexivity.
Qed.

(** *** The loop, one round at a time *)

Lemma encode_loop_gt (n : Z) (bytes_list : list Z) :
  n > 127 ->
  encode_loop n bytes_list =
  encode_loop (Z.shiftr n 7)
    (Z.lor (Z.land (Z.shiftr n 7) 127) 128 :: bytes_list).
Proof.
  intros Hn. rewrite encode_loop_equation_1.
  destruct (Z_gt_dec n 127); [reflexivity | contradiction].
Qed.

Lemma encode_loop_le (n : Z) (bytes_list : list Z) :
  n <= 127 -> encode_loop n bytes_list = bytes_list.
Proof.
  intros Hn. rewrite encode_loop_equation_1.
  destruct (Z_gt_dec n 127); [lia | reflexivity].
Qed.

(** The loop only prepends to the list it is given. *)
Lemma encode_loop_app (n : Z) (l1 l2 : list Z) :
  encode_loop n (l1 ++ l2) = encode_loop n l1 ++ l2.
Proof.
  funelim (encode_loop n l1).
  - rewrite encode_loop_gt by assumption. apply (H l2).
  - apply encode_loop_le. lia.
Qed.

(** Every byte the encoder returns fits in a byte. *)
Lemma encode_loop_range (n : Z) (bytes_list : list Z) :
  Forall (fun b => 0 <= b < 256) bytes_list ->
  Forall (fun b => 0 <= b < 256) (encode_loop n bytes_list).
Proof.
  funelim (encode_loop n bytes_list); intros Hl; [| assumption].
  apply H. constructor; [| assumption].
  rewrite land_127.
  pose proof (Z.mod_pos_bound (Z.shiftr n 7) 128 ltac:(lia)) as Hm.
  rewrite lor_128_small by exact Hm. lia.
Qed.

Lemma encode_var_len_range (n : Z) :
  Forall (fun b => 0 <= b < 256) (encode_var_len n).
Proof.
  apply encode_loop_range. constructor; [| constructor].
  rewrite land_127. pose proof (Z.mod_pos_bound n 128 ltac:(lia)). lia.
Qed.

Lemma encode_var_len_nonempty (n : Z) : encode_var_len n <> [].
Proof.
  unfold encode_var_len.
  change [Z.land n 127] with ([] ++ [Z.land n 127]).
  rewrite encode_loop_app. now destruct (encode_loop n []).
Qed.

(** Reading back what the loop has put in front of [bytes_list] leaves
    the decoder with the groups above the lowest one. *)
Lemma decode_encode_loop (n : Z) (bytes_list : list Z) :
  0 <= n ->
  decode_from 0 (encode_loop n bytes_list) = decode_from (n / 128) bytes_list.
Proof.
  funelim (encode_loop n bytes_list); intros Hn.
  - rewrite H by (rewrite shiftr_7; apply Z.div_pos; lia).
    rewrite !shiftr_7, land_127.
    pose proof (Z.mod_pos_bound (n / 128) 128 ltac:(lia)) as Hm.
    cbn [decode_from].
    rewrite land_128_cont, land_127_cont by exact Hm.
    change (128 =? 0) with false. cbv iota.
    f_equal. pose proof (Z.div_mod (n / 128) 128 ltac:(lia)). lia.
  - now rewrite Z.div_small by lia.
Qed.

(** C2. For every non-negative integer [n], decoding
    [encode_var_len n] under the continuation-bit reading (low seven
    bits of each byte, most significant group first, stopping at the
    first byte with the 0x80 bit clear) gives back [n], with no byte
    left over. *)
Theorem encode_var_len_roundtrip (n : Z) :
  0 <= n -> decode_var_len (encode_var_len n) = Some (n, []).
Proof.
  intros Hn. unfold decode_var_len, encode_var_len.
  rewrite decode_encode_loop by assumption.
  rewrite land_127.
  pose proof (Z.mod_pos_bound n 128 ltac:(lia)) as Hm.
  cbn [decode_from].
  rewrite land_128_small by exact Hm.
  change (0 =? 0) with true. cbv iota.
  rewrite land_127, Z.mod_mod by lia.
  do 2 f_equal. pose proof (Z.div_mod n 128 ltac:(lia)). lia.
Qed.

Lemma encode_var_len_roundtrip_witness :
  0 <= 16384 /\ decode_var_len (encode_var_len 16384) = Some (16384, []).
Proof.
  split; [lia | apply (encode_var_len_roundtrip 16384); lia].
Defined.

(** C3. [encode_var_len] returns [[0x00]] for 0, [[0x7F]] for 127,
    [[0x81, 0x00]] for 128, [[0xFF, 0x7F]] for 16383 and
    [[0x81, 0x80, 0x00]] for 16384. *)
Theorem encode_var_len_examples :
  encode_var_len 0 = [0x00] /\
  encode_var_len 127 = [0x7F] /\
  encode_var_len 128 = [0x81; 0x00] /\
  encode_var_len 16383 = [0xFF; 0x7F] /\
  encode_var_len 16384 = [0x81; 0x80; 0x00].
Proof. repeat split; reflexivity. Qed.

(** C8, as the program has it.  A negative [n] is not rejected: the
    loop is not entered and the call returns the one byte [n & 0x7F],
    which is [n mod 128]. *)
Theorem encode_var_len_negative (n : Z) :
  n < 0 ->
  call_encode_var_len n = Ok [n mod 128] /\ 0 <= n mod 128 < 128.
Proof.
  intros Hn. split.
  - unfold call_encode_var_len, encode_var_len.
    rewrite encode_loop_le by lia. now rewrite land_127.
  - apply Z.mod_pos_bound. lia.
Qed.

Lemma encode_var_len_negative_witness :
  -1 < 0 /\ call_encode_var_len (-1) = Ok [(-1) mod 128] /\
  0 <= (-1) mod 128 < 128.
Proof.
  split; [lia | apply (encode_var_len_negative (-1)); lia].
Defined.

(** C8, as the specification has it, fails at [n = -1]: the call
    returns [[0x7F]] and raises nothing. *)
Lemma encode_var_len_negative_not_rejected :
  -1 < 0 /\ call_encode_var_len (-1) = Ok [0x7F] /\
  ~ raises (call_encode_var_len (-1)).
Proof.
  split; [lia |]. split; [reflexivity |].
  intros [e He]. discriminate He.
Qed.

End VLQ_facts.

(** ** The stable sort *)

Section Sort_facts.
Context {A K : Type}.
Variable key : A -> K.
Variable lt : K -> K -> bool.

Lemma insert_perm (x : A) (l : list A) :
  Permutation (x :: l) (insert key lt x l).
Proof.
  induction l as [| y l IH]; cbn [insert]; [reflexivity |].
  destruct (lt (key y) (key x)); [| reflexivity].
  rewrite perm_swap. now apply perm_skip.
Qed.

Lemma list_sort_perm (l : list A) : Permutation l (list_sort key lt l).
Proof.
  induction l as [| x l IH]; cbn [list_sort]; [reflexivity |].
  rewrite <- insert_perm. now apply perm_skip.
Qed.

(** A list already in order is left as it is. *)
Lemma list_sort_sorted_id (l : list A) :
  Sorted (not_after key lt) l -> list_sort key lt l = l.
Proof.
  induction 1 as [| x l Hs IH Hhd]; cbn [list_sort]; [reflexivity |].
  rewrite IH. destruct Hhd as [| y l Hxy]; cbn [insert]; [reflexivity |].
  unfold not_after in Hxy. now rewrite Hxy.
Qed.

(** Stability: elements that the order does not separate keep their
    relative positions. *)
Section Stable.
Variable q : A -> bool.
Hypothesis q_block :
  forall x y, q x = true -> q y = true -> lt (key y) (key x) = false.

Lemma insert_filter (x : A) (l : list A) :
  filter q (insert key lt x l) = filter q (x :: l).
Proof.
  induction l as [| y l IH]; cbn [insert]; [reflexivity |].
  destruct (lt (key y) (key x)) eqn:Hyx; [| reflexivity].
  cbn [filter] in *. rewrite IH.
  destruct (q x) eqn:Hx, (q y) eqn:Hy; try reflexivity.
  rewrite (q_block x y Hx Hy) in Hyx. discriminate.
Qed.

Lemma list_sort_filter (l : list A) :
  filter q (list_sort key lt l) = filter q l.
Proof.
  induction l as [| x l IH]; cbn [list_sort]; [reflexivity |].
  rewrite insert_filter. cbn [filter]. now rewrite IH.
Qed.
End Stable.

(** Sortedness, for keys in a set [dom] that [lt] orders. *)
Section Ordered.
Variable dom : K -> Prop.
Hypothesis lt_asym :
  forall a b, dom a -> dom b -> lt a b = true -> lt b a = false.
Hypothesis nlt_trans :
  forall a b c, dom a -> dom b -> dom c ->
    lt b a = false -> lt c b = false -> lt c a = false.

Lemma insert_sorted (x : A) (l : list A) :
  dom (key x) -> Forall (fun y => dom (key y)) l ->
  StronglySorted (not_after key lt) l ->
  StronglySorted (not_after key lt) (insert key lt x l).
Proof.
  intros Hx Hl Hs. induction Hs as [| y l Hs IH Hy]; cbn [insert].
  - repeat constructor.
  - inversion Hl as [| ? ? Hdy Hdl]; subst.
    destruct (lt (key y) (key x)) eqn:Hyx.
    + constructor; [now apply IH |].
      apply (Permutation_Forall (insert_perm x l)).
      constructor; [| assumption].
      now apply lt_asym.
    + constructor; [now constructor |].
      constructor; [exact Hyx |].
      rewrite Forall_forall in Hy, Hdl |- *. intros z Hz.
      apply (nlt_trans (key x) (key y) (key z));
        [exact Hx | exact Hdy | now apply Hdl | exact Hyx | now apply Hy].
Qed.

Lemma list_sort_sorted (l : list A) :
  Forall (fun y => dom (key y)) l ->
  StronglySorted (not_after key lt) (list_sort key lt l).
Proof.
  induction 1 as [| x l Hx Hl IH]; cbn [list_sort]; [constructor |].
  apply insert_sorted; [assumption | | assumption].
  now apply (Permutation_Forall (list_sort_perm l)).
Qed.
End Ordered.

(** Where a filtered list splits, the list splits. *)
Lemma filter_split (q : A -> bool) (s u v : list A) (x : A) :
  filter q s = u ++ x :: v ->
  exists s1 s2,
    s = s1 ++ x :: s2 /\ filter q s1 = u /\ filter q s2 = v.
Proof.
  revert u. induction s as [| y s IH]; intros u Hf; cbn [filter] in Hf.
  - now destruct u.
  - destruct (q y) eqn:Hy.
    + destruct u as [| y' u]; cbn [app] in Hf; injection Hf as -> Hf.
      * exists [], s. now repeat split.
      * destruct (IH _ Hf) as (s1 & s2 & -> & <- & <-).
        exists (y' :: s1), s2. cbn [filter app]. now rewrite Hy.
    + destruct (IH _ Hf) as (s1 & s2 & -> & <- & <-).
      exists (y :: s1), s2. cbn [filter app]. now rewrite Hy.
Qed.
End Sort_facts.

(** ** Floats: the order *)

(** Case analysis on every comparison of exponents and mantissas in
    the goal. *)
Ltac split_compares :=
  repeat match goal with
  | |- context [Pos.compare_cont Eq ?x ?y] =>
      change (Pos.compare_cont Eq x y) with (Pos.compare x y)
  | |- context [Z.compare ?x ?y] => destruct (Z.compare_spec x y)
  | |- context [Pos.compare ?x ?y] => destruct (Pos.compare_spec x y)
  end.

Section Float_order.

Lemma SFcompare_antisym (a b : Py.float) :
  SFcompare b a = option_map CompOpp (SFcompare a b).
Proof.
  destruct a as [[] | [] | | [] ma ea], b as [[] | [] | | [] mb eb];
    cbn; try reflexivity;
    rewrite (Z.compare_antisym ea eb);
    destruct (ea ?= eb); cbn; try reflexivity;
    rewrite (Pos.compare_cont_antisym ma mb Eq); cbn;
    now rewrite ?CompOpp_involutive.
Qed.

Lemma flt_asym (a b : Py.float) : Py.flt a b = true -> Py.flt b a = false.
Proof.
  unfold Py.flt, SFltb. rewrite (SFcompare_antisym a b).
  now destruct (SFcompare a b) as [[] |].
Qed.

Lemma fle_iff_nlt (a b : Py.float) :
  Py.is_nan a = false -> Py.is_nan b = false ->
  Py.fle a b = true <-> Py.flt b a = false.
Proof.
  intros Ha Hb. unfold Py.fle, Py.flt, SFleb, SFltb.
  rewrite (SFcompare_antisym a b).
  destruct a as [[] | [] | | [] ma ea], b as [[] | [] | | [] mb eb];
    try discriminate; cbn; try easy;
    destruct (ea ?= eb); cbn; try easy;
    destruct (Pos.compare_cont Eq ma mb); cbn; easy.
Qed.


Lemma fle_trans (a b c : Py.float) :
  Py.fle a b = true -> Py.fle b c = true -> Py.fle a c = true.
Proof.
  unfold Py.fle, SFleb.
  destruct a as [[] | [] | | [] ma ea], b as [[] | [] | | [] mb eb],
    c as [[] | [] | | [] mc ec];
    cbn; try easy; split_compares; cbn; try easy; try lia.
Qed.

Lemma feq_nlt (a b t : Py.float) :
  Py.feq a t = true -> Py.feq b t = true -> Py.flt b a = false.
Proof.
  unfold Py.feq, Py.flt, SFeqb, SFltb.
  destruct a as [[] | [] | | [] ma ea], b as [[] | [] | | [] mb eb],
    t as [[] | [] | | [] mc ec];
    cbn; try easy; split_compares; cbn; try easy; try lia.
Qed.

End Float_order.

(** ** Floats: rounding keeps the sign *)


Section Rounding_facts.

Lemma iter_pos_invariant {A : Type} (P : A -> Prop) (f : A -> A) :
  (forall x, P x -> P (f x)) ->
  forall n x, P x -> P (iter_pos f n x).
Proof.
  intros Hf. induction n as [n IH | n IH |]; intros x Hx; cbn [iter_pos]; auto.
Qed.

Lemma shr_1_nonneg (mrs : shr_record) : 0 <= shr_m mrs -> 0 <= shr_m (shr_1 mrs).
Proof.
  destruct mrs as [[| [p | p |] | p] r s]; cbn; lia.
Qed.

Lemma shr_fexp_nonneg (m e : Z) (l : location) :
  0 <= m -> 0 <= shr_m (fst (shr_fexp Py.prec Py.emax m e l)).
Proof.
  intros Hm. unfold shr_fexp, shr.
  assert (H0 : 0 <= shr_m (shr_record_of_loc m l))
    by (destruct l as [| []]; exact Hm).
  destruct (fexp Py.prec Py.emax (Zdigits2 m + e) - e); cbn [fst]; try exact H0.
  now apply (iter_pos_invariant (fun r => 0 <= shr_m r)), H0; apply shr_1_nonneg.
Qed.

Lemma round_nearest_even_nonneg (m : Z) (l : location) :
  0 <= m -> 0 <= round_nearest_even m l.
Proof.
  intros Hm. destruct l as [| []]; cbn; try lia. destruct (Z.even m); lia.
Qed.

Lemma binary_round_aux_sign (s : bool) (m e : Z) (l : location) :
  0 <= m -> Py.sign_class s (binary_round_aux Py.prec Py.emax s m e l).
Proof.
  intros Hm. unfold binary_round_aux.
  pose proof (shr_fexp_nonneg m e l Hm) as H1.
  destruct (shr_fexp Py.prec Py.emax m e l) as [mrs' e']. cbn [fst] in H1.
  pose proof (shr_fexp_nonneg _ e' loc_Exact
                (round_nearest_even_nonneg _ (loc_of_shr_record mrs') H1)) as H2.
  destruct (shr_fexp Py.prec Py.emax _ e' loc_Exact) as [mrs'' e''].
  cbn [fst] in H2.
  destruct (shr_m mrs'') as [| p | p]; [reflexivity | | lia].
  destruct (e'' <=? Py.emax - Py.prec); reflexivity.
Qed.

Lemma binary_round_sign (s : bool) (m : positive) (e : Z) :
  Py.sign_class s (binary_round Py.prec Py.emax s m e).
Proof.
  unfold binary_round.
  destruct (shl_align m e _) as [mz ez]. now apply binary_round_aux_sign.
Qed.

Lemma binary_normalize_sign (m e : Z) :
  0 <= m -> Py.sign_class false (binary_normalize Py.prec Py.emax m e false).
Proof.
  intros Hm. destruct m as [| p | p]; cbn [binary_normalize];
    [reflexivity | apply binary_round_sign | lia].
Qed.

End Rounding_facts.

(** ** Floats: subtraction *)

Section Subtraction_facts.

Lemma digits2_pos_bounds (m : positive) :
  2 ^ (Z.pos (digits2_pos m) - 1) <= Z.pos m < 2 ^ Z.pos (digits2_pos m).
Proof.
  induction m as [m IH | m IH |]; cbn [digits2_pos].
  - rewrite Pos2Z.inj_succ. change (Z.pos m~1) with (2 * Z.pos m + 1).
    replace (Z.succ (Z.pos (digits2_pos m)) - 1)
      with (Z.succ (Z.pos (digits2_pos m) - 1)) by lia.
    rewrite !Z.pow_succ_r by lia. lia.
  - rewrite Pos2Z.inj_succ. change (Z.pos m~0) with (2 * Z.pos m).
    replace (Z.succ (Z.pos (digits2_pos m)) - 1)
      with (Z.succ (Z.pos (digits2_pos m) - 1)) by lia.
    rewrite !Z.pow_succ_r by lia. lia.
  - cbn. lia.
Qed.

(** A canonical mantissa has at most 53 bits, and exactly 53 unless the
    exponent is the smallest one. *)
Lemma bounded_inv (m : positive) (e : Z) :
  bounded Py.prec Py.emax m e = true ->
  Z.pos m < 2 ^ 53 /\ (e = -1074 \/ 2 ^ 52 <= Z.pos m) /\ -1074 <= e.
Proof.
  unfold bounded, canonical_mantissa, fexp, emin, Py.prec, Py.emax.
  intros H. apply andb_prop in H as [H _]. apply Z.eqb_eq in H.
  pose proof (digits2_pos_bounds m) as [Hlo Hhi].
  set (d := Z.pos (digits2_pos m)) in *.
  assert (Hd : d <= 53) by lia.
  split; [| split].
  - eapply Z.lt_le_trans; [exact Hhi |]. apply Z.pow_le_mono_r; lia.
  - destruct (Z.eq_dec e (-1074)) as [-> | Hne]; [now left | right].
    assert (d = 53) as Hd53 by lia. rewrite Hd53 in Hlo. exact Hlo.
  - lia.
Qed.

Lemma bounded_lt_exp (ma mb : positive) (ea eb : Z) :
  bounded Py.prec Py.emax ma ea = true ->
  bounded Py.prec Py.emax mb eb = true ->
  ea < eb -> Z.pos ma < Z.pos mb * 2 ^ (eb - ea).
Proof.
  intros Ha Hb Hlt.
  apply bounded_inv in Ha as (Ha & _ & Hea).
  apply bounded_inv in Hb as (_ & [-> | Hb] & _); [lia |].
  assert (H2 : 2 ^ 1 <= 2 ^ (eb - ea)) by (apply Z.pow_le_mono_r; lia).
  change (2 ^ 1) with 2 in H2.
  change (2 ^ 53) with 9007199254740992 in Ha.
  change (2 ^ 52) with 4503599627370496 in Hb.
  nia.
Qed.

Lemma pos_iter_xO (m d : positive) :
  Z.pos (Pos.iter xO m d) = Z.pos m * 2 ^ Z.pos d.
Proof.
  induction d as [| d IH] using Pos.peano_ind.
  - cbn. lia.
  - rewrite Pos.iter_succ, Pos2Z.inj_succ, Z.pow_succ_r by lia.
    change (Z.pos (Pos.iter xO m d)~0) with (2 * Z.pos (Pos.iter xO m d)).
    rewrite IH. lia.
Qed.

Lemma shl_align_fst (m : positive) (e e' : Z) :
  e' <= e -> Z.pos (fst (shl_align m e e')) = Z.pos m * 2 ^ (e - e').
Proof.
  intros Hle. unfold shl_align.
  destruct (e' - e) as [| d | d] eqn:Hd; cbn [fst].
  - replace (e - e') with 0 by lia. lia.
  - lia.
  - rewrite pos_iter_xO. f_equal. f_equal. lia.
Qed.

(** The gap from a float up to one that is not smaller is not negative. *)
Lemma fsub_sign (a b : Py.float) :
  Py.is_float64 a -> Py.is_float64 b ->
  Py.is_finite a = true -> Py.is_finite b = true ->
  Py.fle a b = true ->
  Py.not_negative (Py.fsub b a).
Proof.
  unfold Py.is_float64, Py.fle, SFleb.
  destruct a as [sa | sa | | sa ma ea], b as [sb | sb | | sb mb eb];
    try discriminate; intros Va Vb _ _ Hle.
  - destruct sa, sb; exact I.
  - destruct sb; [discriminate | reflexivity].
  - destruct sa; [reflexivity | discriminate].
  - cbn [valid_binary] in Va, Vb. cbn [Py.fsub SFsub].
    set (ez := Z.min eb ea).
    set (z := cond_Zopp sb (Z.pos (fst (shl_align mb eb ez)))
              - cond_Zopp sa (Z.pos (fst (shl_align ma ea ez)))).
    assert (Hz : 0 <= z).
    { subst z. rewrite !shl_align_fst by (subst ez; lia).
      assert (0 < 2 ^ (eb - ez)) by (apply Z.pow_pos_nonneg; subst ez; lia).
      assert (0 < 2 ^ (ea - ez)) by (apply Z.pow_pos_nonneg; subst ez; lia).
      cbn [SFcompare] in Hle.
      change (Pos.compare_cont Eq ma mb) with (Pos.compare ma mb) in Hle.
      destruct sa, sb; cbn [cond_Zopp]; try discriminate; try nia.
      - destruct (Z.compare_spec ea eb) as [-> | Hlt | Hgt]; try discriminate.
        + replace (eb - ez) with 0 in * by (subst ez; lia). 
          destruct (Pos.compare_spec ma mb); try discriminate; 
            rewrite ?Z.pow_0_r; subst; lia.
        + pose proof (bounded_lt_exp mb ma eb ea Vb Va Hgt).
          replace (eb - ez) with 0 by (subst ez; lia).
          replace (ea - ez) with (ea - eb) by (subst ez; lia).
          rewrite Z.pow_0_r. lia.
      - destruct (Z.compare_spec ea eb) as [-> | Hlt | Hgt]; try discriminate.
        + replace (eb - ez) with 0 in * by (subst ez; lia). 
          destruct (Pos.compare_spec ma mb); try discriminate; 
            rewrite ?Z.pow_0_r; subst; lia.
        + pose proof (bounded_lt_exp ma mb ea eb Va Vb Hlt).
          replace (ea - ez) with 0 by (subst ez; lia).
          replace (eb - ez) with (eb - ea) by (subst ez; lia).
          rewrite Z.pow_0_r. lia. }
    pose proof (binary_normalize_sign z ez Hz) as Hs.
    fold z. destruct (binary_normalize Py.prec Py.emax z ez false);
      [exact I | exact Hs ..].
Qed.

End Subtraction_facts.

(** ** Floats: conversion from integers *)

Section Conversion_facts.

Lemma shr_1_div2 (r : shr_record) :
  0 <= shr_m r -> shr_m (shr_1 r) = shr_m r / 2.
Proof.
  destruct r as [[| [p | p |] | p] r s]; cbn [shr_m shr_1]; intros H;
    try lia; try reflexivity.
  - change (Z.pos p~1) with (2 * Z.pos p + 1).
    apply Z.div_unique with 1; lia.
  - change (Z.pos p~0) with (2 * Z.pos p).
    apply Z.div_unique with 0; lia.
Qed.

Lemma iter_pos_shr_m (n : positive) (r : shr_record) :
  0 <= shr_m r -> shr_m (iter_pos shr_1 n r) = shr_m r / 2 ^ Z.pos n.
Proof.
  revert r. induction n as [n IH | n IH |]; intros r Hr; cbn [iter_pos].
  - assert (H1 : 0 <= shr_m (shr_1 r)) by now apply shr_1_nonneg.
    assert (H2 : 0 <= shr_m (iter_pos shr_1 n (shr_1 r)))
      by (apply (iter_pos_invariant (fun x => 0 <= shr_m x));
          auto using shr_1_nonneg).
    rewrite IH, IH, shr_1_div2 by assumption.
    rewrite !Z.div_div by lia.
    f_equal. replace (Z.pos n~1) with (Z.pos n + Z.pos n + 1) by lia.
    rewrite !Z.pow_add_r by lia. lia.
  - assert (H2 : 0 <= shr_m (iter_pos shr_1 n r))
      by (apply (iter_pos_invariant (fun x => 0 <= shr_m x));
          auto using shr_1_nonneg).
    rewrite IH, IH by assumption.
    rewrite !Z.div_div by lia.
    f_equal. replace (Z.pos n~0) with (Z.pos n + Z.pos n) by lia.
    rewrite !Z.pow_add_r by lia. lia.
  - now apply shr_1_div2.
Qed.

Lemma shr_fexp_pos (m e : Z) (l : location) :
  0 < m -> -1074 <= e ->
  0 < shr_m (fst (shr_fexp Py.prec Py.emax m e l)) /\
  -1074 <= snd (shr_fexp Py.prec Py.emax m e l).
Proof.
  intros Hm He. destruct m as [| p | p]; try lia.
  unfold shr_fexp, shr, fexp, emin, Py.prec, Py.emax. cbn [Zdigits2].
  pose proof (digits2_pos_bounds p) as [Hlo _].
  set (d := Z.pos (digits2_pos p)) in *.
  assert (Hrec : shr_m (shr_record_of_loc (Z.pos p) l) = Z.pos p)
    by (destruct l as [| []]; reflexivity).
  destruct (Z.max (d + e - 53) (3 - 1024 - 53) - e) as [| k | k] eqn:Hk;
    cbn [fst snd]; rewrite ?Hrec; try (split; lia).
  rewrite iter_pos_shr_m by (rewrite Hrec; lia). rewrite Hrec.
  split; [| lia].
  assert (Hd : d - 1 = Z.pos k + 52) by lia.
  rewrite Hd, Z.pow_add_r in Hlo by lia.
  assert (Hp : 0 < 2 ^ Z.pos k) by (apply Z.pow_pos_nonneg; lia).
  apply Z.lt_le_trans with (2 ^ 52); [reflexivity |].
  apply Z.div_le_lower_bound; lia.
Qed.

Lemma round_nearest_even_ge (m : Z) (l : location) :
  m <= round_nearest_even m l.
Proof.
  destruct l as [| []]; cbn; try lia. destruct (Z.even m); lia.
Qed.

(** Rounding a positive number whose exponent is at least the smallest
    one gives a finite float that is not zero, or an infinity. *)
Lemma binary_round_aux_nonzero (s : bool) (m e : Z) (l : location) :
  0 < m -> -1074 <= e ->
  match binary_round_aux Py.prec Py.emax s m e l with
  | S754_finite s' _ _ | S754_infinity s' => s' = s
  | _ => False
  end.
Proof.
  intros Hm He. unfold binary_round_aux.
  pose proof (shr_fexp_pos m e l Hm He) as [H1 H1e].
  destruct (shr_fexp Py.prec Py.emax m e l) as [mrs' e']. cbn [fst snd] in *.
  pose proof (round_nearest_even_ge (shr_m mrs') (loc_of_shr_record mrs')) as Hr.
  pose proof (shr_fexp_pos (round_nearest_even (shr_m mrs') (loc_of_shr_record mrs'))
                e' loc_Exact ltac:(lia) H1e) as [H2 _].
  destruct (shr_fexp Py.prec Py.emax _ e' loc_Exact) as [mrs'' e''].
  cbn [fst] in H2.
  destruct (shr_m mrs'') as [| p | p]; try lia.
  destruct (e'' <=? Py.emax - Py.prec); reflexivity.
Qed.

Lemma float_of_int_pos (n : Z) :
  0 < n ->
  match Py.float_of_int n with
  | Ok (S754_finite false _ _) => True
  | Raise OverflowError => True
  | _ => False
  end.
Proof.
  intros Hn. destruct n as [| p | p]; try lia.
  unfold Py.float_of_int. cbn [binary_normalize]. unfold binary_round.
  destruct (shl_align p 0 _) as [mz ez] eqn:Hal.
  assert (Hez : -1074 <= ez).
  { unfold shl_align in Hal.
    destruct (fexp Py.prec Py.emax (Z.pos (digits2_pos p) + 0) - 0) eqn:Hf;
      injection Hal as <- <-; try lia.
    unfold fexp, emin, Py.prec, Py.emax. lia. }
  pose proof (binary_round_aux_nonzero false (Z.pos mz) ez loc_Exact
                ltac:(lia) Hez) as H.
  destruct (binary_round_aux Py.prec Py.emax false (Z.pos mz) ez loc_Exact)
    as [| | | s m e]; try contradiction; subst; exact I.
Qed.


Lemma digits2_pos_iter_xO (p k : positive) :
  Z.pos (digits2_pos (Pos.iter xO p k)) = Z.pos (digits2_pos p) + Z.pos k.
Proof.
  induction k as [| k IH] using Pos.peano_ind.
  - cbn [Pos.iter digits2_pos]. lia.
  - rewrite Pos.iter_succ. cbn [digits2_pos]. lia.
Qed.

Lemma shl_align_digits (p : positive) (e e' : Z) :
  e' <= e ->
  Z.pos (digits2_pos (fst (shl_align p e e'))) = Z.pos (digits2_pos p) + (e - e')
  /\ snd (shl_align p e e') = e'.
Proof.
  intros Hle. unfold shl_align.
  destruct (e' - e) as [| k | k] eqn:Hk; cbn [fst snd]; try lia.
  rewrite digits2_pos_iter_xO. lia.
Qed.

(** A mantissa of exactly 53 bits with an exponent in range is a float
    as it stands: nothing is rounded away. *)
Lemma binary_round_aux_canonical (s : bool) (m : positive) (e : Z) :
  Z.pos (digits2_pos m) = 53 -> -1074 <= e <= 971 ->
  binary_round_aux Py.prec Py.emax s (Z.pos m) e loc_Exact = S754_finite s m e.
Proof.
  intros Hd He.
  assert (Hsh : shr_fexp Py.prec Py.emax (Z.pos m) e loc_Exact
                = (Build_shr_record (Z.pos m) false false, e)).
  { unfold shr_fexp, fexp, emin, Py.prec, Py.emax. cbn [Zdigits2].
    rewrite Hd. replace (Z.max (53 + e - 53) (3 - 1024 - 53) - e) with 0 by lia.
    reflexivity. }
  unfold binary_round_aux. rewrite Hsh.
  cbn [shr_m loc_of_shr_record round_nearest_even]. rewrite Hsh.
  cbn [shr_m]. unfold Py.emax, Py.prec.
  destruct (Z.leb_spec e (1024 - 53)); [reflexivity | lia].
Qed.

(** Integers below 2^53 convert to a float, with no error. *)
Lemma float_of_int_small (n : Z) :
  0 < n < 2 ^ 53 ->
  exists m e, Py.float_of_int n = Ok (S754_finite false m e).
Proof.
  intros [Hpos Hlt]. destruct n as [| p | p]; try lia.
  pose proof (digits2_pos_bounds p) as [Hlo _].
  set (d := Z.pos (digits2_pos p)) in *.
  assert (Hd : d <= 53).
  { destruct (Z_le_gt_dec d 53) as [H | H]; [exact H | exfalso].
    assert (2 ^ 53 <= 2 ^ (d - 1)) by (apply Z.pow_le_mono_r; lia). lia. }
  assert (Hd1 : 1 <= d) by (subst d; lia).
  unfold Py.float_of_int. cbn [binary_normalize]. unfold binary_round.
  replace (fexp Py.prec Py.emax (Z.pos (digits2_pos p) + 0)) with (d - 53)
    by (unfold fexp, emin, Py.prec, Py.emax; fold d; lia).
  pose proof (shl_align_digits p 0 (d - 53) ltac:(lia)) as [Hdig Hexp].
  destruct (shl_align p 0 (d - 53)) as [mz ez]. cbn [fst snd] in Hdig, Hexp.
  fold d in Hdig.
  rewrite binary_round_aux_canonical by lia.
  now exists mz, ez.
Qed.

End Conversion_facts.

(** ** Ticks *)

Section Tick_facts.

Lemma round_half_even_nonneg (m : positive) (e : Z) :
  0 <= Py.round_half_even m e.
Proof.
  unfold Py.round_half_even. destruct (0 <=? e) eqn:He.
  - apply Z.leb_le in He. pose proof (Z.pow_nonneg 2 e ltac:(lia)). nia.
  - apply Z.leb_gt in He.
    assert (Hd : 0 < 2 ^ (- e)) by (apply Z.pow_pos_nonneg; lia).
    pose proof (Z.div_pos (Z.pos m) (2 ^ (- e)) ltac:(lia) Hd) as Hq.
    cbv zeta. destruct (2 * (Z.pos m mod 2 ^ (- e)) ?= 2 ^ (- e));
      [destruct (Z.even _) | |]; lia.
Qed.

(** A gap that is not negative, times a positive rate, rounds to a
    count that is not negative. *)
Lemma fmul_round_nonneg (x : Py.float) (m : positive) (e : Z) :
  Py.not_negative x ->
  delta_ok (Py.round (Py.fmul x (S754_finite false m e))).
Proof.
  destruct x as [s | [] | | [] mx ex]; cbn [Py.not_negative]; intros Hx;
    try discriminate Hx; try contradiction Hx.
  - unfold delta_ok. cbn [Py.fmul SFmul Py.round]. lia.
  - reflexivity.
  - cbn [Py.fmul SFmul xorb].
    pose proof (binary_round_aux_sign false (Z.pos (mx * m)) (ex + e)
                  loc_Exact ltac:(lia)) as Hs.
    destruct (binary_round_aux Py.prec Py.emax false _ _ loc_Exact)
      as [s | s | | s m' e']; cbn in Hs |- *; subst;
      try contradiction; try reflexivity; try lia.
    apply round_half_even_nonneg.
Qed.

Lemma delta_ticks_nonneg (tps : Z) (a b : Py.float) :
  0 < tps ->
  Py.is_float64 a -> Py.is_float64 b ->
  Py.is_finite a = true -> Py.is_finite b = true ->
  Py.fle a b = true ->
  delta_ok (delta_ticks tps a b).
Proof.
  intros Htps Va Vb Fa Fb Hle. unfold delta_ticks, Py.fmul_int.
  pose proof (float_of_int_pos tps Htps) as Hc.
  destruct (Py.float_of_int tps) as [[| | | [] m e] | []];
    try contradiction; cbn [bind]; [| reflexivity].
  apply fmul_round_nonneg. now apply fsub_sign.
Qed.

Lemma feq_finite (a b : Py.float) :
  Py.feq a b = true -> Py.is_finite a = true -> Py.is_finite b = true.
Proof.
  destruct a as [[] | [] | | [] ma ea], b as [[] | [] | | [] mb eb];
    cbn; easy.
Qed.

Lemma feq_sym (a b : Py.float) : Py.feq a b = true -> Py.feq b a = true.
Proof.
  unfold Py.feq, SFeqb. rewrite (SFcompare_antisym a b).
  now destruct (SFcompare a b) as [[] |].
Qed.

Lemma feq_refl (a : Py.float) : Py.is_nan a = false -> Py.feq a a = true.
Proof.
  unfold Py.feq, SFeqb.
  destruct a as [[] | [] | | [] ma ea]; cbn; try easy; intros _;
    rewrite Z.compare_refl;
    change (Pos.compare_cont Eq ma ma) with (Pos.compare ma ma);
    now rewrite Pos.compare_refl.
Qed.

Lemma feq_trans (a b c : Py.float) :
  Py.feq a b = true -> Py.feq b c = true -> Py.feq a c = true.
Proof.
  unfold Py.feq, SFeqb.
  destruct a as [[] | [] | | [] ma ea], b as [[] | [] | | [] mb eb],
    c as [[] | [] | | [] mc ec];
    cbn; try easy; split_compares; cbn; try easy; try lia.
Qed.

(** Between two equal floats there are only floats equal to them. *)
Lemma fle_sandwich (a x b : Py.float) :
  Py.fle a x = true -> Py.fle x b = true -> Py.feq a b = true ->
  Py.feq x a = true.
Proof.
  unfold Py.feq, Py.fle, SFeqb, SFleb.
  destruct a as [[] | [] | | [] ma ea], b as [[] | [] | | [] mb eb],
    x as [[] | [] | | [] mc ec];
    cbn; try easy; split_compares; cbn; try easy; try lia.
Qed.

Lemma fsub_feq (a b : Py.float) :
  Py.is_finite a = true -> Py.feq a b = true ->
  exists s, Py.fsub b a = S754_zero s.
Proof.
  unfold Py.feq, SFeqb.
  destruct a as [sa | sa | | sa ma ea], b as [sb | sb | | sb mb eb];
    try discriminate; intros _ Heq; cbn [SFcompare] in Heq;
    try (destruct sa; cbn in Heq; discriminate Heq);
    try (destruct sb; cbn in Heq; discriminate Heq).
  - cbn. destruct sb, sa; eauto.
  - change (Pos.compare_cont Eq ma mb) with (Pos.compare ma mb) in Heq.
    assert (sa = sb /\ ea = eb /\ ma = mb) as (-> & -> & ->).
    { destruct sa, sb; try discriminate Heq;
        destruct (Z.compare_spec ea eb); try discriminate Heq;
        destruct (Pos.compare_spec ma mb); try discriminate Heq; auto. }
    exists false. cbn [Py.fsub SFsub]. now rewrite Z.sub_diag.
Qed.

(** Two events at the same time are zero ticks apart. *)
Lemma delta_ticks_zero (tps : Z) (a b : Py.float) :
  0 <= tps < 2 ^ 53 ->
  Py.is_finite a = true -> Py.feq a b = true ->
  delta_ticks tps a b = Ok 0.
Proof.
  intros Htps Fa Heq. unfold delta_ticks, Py.fmul_int.
  destruct (fsub_feq a b Fa Heq) as [s ->].
  destruct (Z.eq_dec tps 0) as [-> | Hne].
  - cbn. reflexivity.
  - destruct (float_of_int_small tps ltac:(lia)) as (m & e & ->).
    reflexivity.
Qed.

End Tick_facts.

(** ** Bytes and packed integers *)

Section Byte_facts.

Lemma Z_of_byte_of_Z (z : Z) : Py.Z_of_byte (Py.byte_of_Z z) = z mod 256.
Proof.
  unfold Py.Z_of_byte, Py.byte_of_Z.
  pose proof (Z.mod_pos_bound z 256 ltac:(lia)) as Hm.
  destruct (Byte.of_N (Z.to_N (z mod 256))) as [b |] eqn:Hb.
  - apply Byte.to_of_N in Hb. rewrite Hb. lia.
  - apply Byte.of_N_None_iff in Hb. lia.
Qed.

Lemma bytes_inv (l : list Z) (bs : list byte) :
  Py.bytes l = Ok bs ->
  Forall (fun z => 0 <= z < 256) l /\ bs = map Py.byte_of_Z l.
Proof.
  revert bs. induction l as [| z l IH]; intros bs H; cbn [Py.bytes] in H.
  - injection H as <-. now split.
  - destruct ((0 <=? z) && (z <? 256)) eqn:Hz; [| discriminate].
    destruct (Py.bytes l) as [bs' |]; [| discriminate].
    injection H as <-. destruct (IH _ eq_refl) as [Hl ->].
    split; [constructor; [lia | assumption] | reflexivity].
Qed.

Lemma bytes_intro (l : list Z) :
  Forall (fun z => 0 <= z < 256) l -> Py.bytes l = Ok (map Py.byte_of_Z l).
Proof.
  induction 1 as [| z l Hz Hl IH]; cbn [Py.bytes map]; [reflexivity |].
  rewrite IH.
  destruct (Z.leb_spec 0 z), (Z.ltb_spec z 256); try lia. reflexivity.
Qed.

Lemma be_bytes_length (w : nat) (n : Z) :
  List.length (Py.be_bytes w n) = w.
Proof.
  revert n. induction w as [| w IH]; intros n; cbn [Py.be_bytes];
    [reflexivity |].
  rewrite length_app, IH. cbn. lia.
Qed.

Lemma be_value_snoc (bs : list byte) (b : byte) :
  Py.be_value (bs ++ [b]) = Py.be_value bs * 256 + Py.Z_of_byte b.
Proof. unfold Py.be_value. now rewrite fold_left_app. Qed.

Lemma be_value_be_bytes (w : nat) (n : Z) :
  Py.be_value (Py.be_bytes w n) = n mod 256 ^ Z.of_nat w.
Proof.
  revert n. induction w as [| w IH]; intros n.
  - cbn. now rewrite Z.mod_1_r.
  - cbn [Py.be_bytes]. rewrite be_value_snoc, IH, Z_of_byte_of_Z.
    rewrite Nat2Z.inj_succ, Z.pow_succ_r by lia.
    assert (0 < 256 ^ Z.of_nat w) by (apply Z.pow_pos_nonneg; lia).
    rewrite (Z.rem_mul_r n 256 (256 ^ Z.of_nat w)) by lia. lia.
Qed.

Lemma pack_uint_inv (w : nat) (n : Z) (bs : list byte) :
  Py.pack_uint w n = Ok bs ->
  0 <= n < 256 ^ Z.of_nat w /\ bs = Py.be_bytes w n /\ Py.be_value bs = n.
Proof.
  unfold Py.pack_uint. intros H.
  destruct (Z.leb_spec 0 n), (Z.ltb_spec n (256 ^ Z.of_nat w));
    cbn [andb] in H; try discriminate.
  injection H as <-. repeat split; try assumption.
  rewrite be_value_be_bytes. apply Z.mod_small. lia.
Qed.

Lemma pack_uint_intro (w : nat) (n : Z) :
  0 <= n < 256 ^ Z.of_nat w -> Py.pack_uint w n = Ok (Py.be_bytes w n).
Proof.
  intros H. unfold Py.pack_uint.
  destruct (Z.leb_spec 0 n), (Z.ltb_spec n (256 ^ Z.of_nat w)); try lia.
  reflexivity.
Qed.

End Byte_facts.

(** ** The track and the file *)

Section Writer_facts.

Lemma bytes_encode_var_len (n : Z) :
  Py.bytes (encode_var_len n) = Ok (map Py.byte_of_Z (encode_var_len n)).
Proof. apply bytes_intro, encode_var_len_range. Qed.

Lemma tick_deltas_length (tps : Z) (last : Py.float) (events : list event) :
  List.length (tick_deltas tps last events) = List.length events.
Proof.
  revert last. induction events as [| [t d] events IH]; intros last;
    cbn [tick_deltas List.length]; [reflexivity | now rewrite IH].
Qed.

(** What a run of the loop that returns has done: every delta was a
    value, every data byte was in range, and the track has grown by the
    events' bytes, in order. *)
Lemma track_loop_inv (tps : Z) (events : list event) (track : list byte)
    (last : Py.float) (out : list byte) :
  track_loop tps events track last = Ok out ->
  exists ticks,
    tick_deltas tps last events = map Ok ticks /\
    Forall (fun ev => Forall (fun z => 0 <= z < 256) (snd ev)) events /\
    out = track ++ track_bytes ticks events.
Proof.
  revert track last. induction events as [| [t d] events IH];
    intros track last H; cbn [track_loop] in H.
  - injection H as <-. exists []. cbn. now rewrite app_nil_r.
  - destruct (delta_ticks tps last t) as [n |] eqn:Hn; [| discriminate].
    cbn [bind] in H. rewrite bytes_encode_var_len in H. cbn [bind] in H.
    destruct (Py.bytes d) as [b2 |] eqn:Hd; [| discriminate].
    cbn [bind] in H. apply bytes_inv in Hd as [Hd ->].
    destruct (IH _ _ H) as (ticks & Hticks & Hall & ->).
    exists (n :: ticks). cbn [tick_deltas map track_bytes snd].
    rewrite Hn, Hticks. split; [reflexivity |].
    split; [now constructor |].
    unfold event_bytes. now rewrite <- !app_assoc.
Qed.

(** And the other way round: such a run returns. *)
Lemma track_loop_intro (tps : Z) (events : list event) (track : list byte)
    (last : Py.float) (ticks : list Z) :
  tick_deltas tps last events = map Ok ticks ->
  Forall (fun ev => Forall (fun z => 0 <= z < 256) (snd ev)) events ->
  track_loop tps events track last = Ok (track ++ track_bytes ticks events).
Proof.
  revert track last ticks. induction events as [| [t d] events IH];
    intros track last ticks Ht Hall; cbn [tick_deltas] in Ht.
  - destruct ticks; [| discriminate]. cbn. now rewrite app_nil_r.
  - destruct ticks as [| n ticks]; [discriminate |].
    cbn [map] in Ht. injection Ht as Hn Ht.
    inversion Hall as [| ? ? Hd Hall']; subst. cbn [snd] in Hd.
    cbn [track_loop track_bytes]. rewrite Hn. cbn [bind].
    rewrite bytes_encode_var_len. cbn [bind].
    rewrite (bytes_intro d Hd). cbn [bind].
    rewrite (IH _ _ _ Ht Hall'). unfold event_bytes.
    now rewrite <- !app_assoc.
Qed.

Lemma build_header_inv (division : Z) (h : list byte) :
  build_header division = Ok h ->
  0 <= division < 65536 /\ h = header_bytes division.
Proof.
  unfold build_header. cbn [bind Py.pack_uint].
  change (Py.pack_uint 4 6) with (Ok (A := list byte) [x00; x00; x00; x06]).
  change (Py.pack_uint 2 0) with (Ok (A := list byte) [x00; x00]).
  change (Py.pack_uint 2 1) with (Ok (A := list byte) [x00; x01]).
  cbn [bind].
  destruct (Py.pack_uint 2 division) as [dv |] eqn:Hdv; [| discriminate].
  cbn [bind]. intros H. injection H as <-.
  apply pack_uint_inv in Hdv as (Hr & -> & _).
  split; [exact Hr | reflexivity].
Qed.

Lemma build_header_intro (division : Z) :
  0 <= division < 65536 ->
  build_header division = Ok (header_bytes division).
Proof.
  intros Hd. unfold build_header.
  change (Py.pack_uint 4 6) with (Ok (A := list byte) [x00; x00; x00; x06]).
  change (Py.pack_uint 2 0) with (Ok (A := list byte) [x00; x00]).
  change (Py.pack_uint 2 1) with (Ok (A := list byte) [x00; x01]).
  cbn [bind]. rewrite pack_uint_intro by exact Hd. reflexivity.
Qed.

(** The bytes of the file, when there are any. *)
Lemma midi_bytes_inv (events : list event) (division : Z)
    (content : list byte) :
  midi_bytes events division = Ok content ->
  exists ticks,
    0 <= division < 65536 /\
    tick_deltas (ticks_per_second division) Py.fzero events = map Ok ticks /\
    Forall (fun ev => Forall (fun z => 0 <= z < 256) (snd ev)) events /\
    let track := track_bytes ticks events ++ end_of_track in
    Z.of_nat (List.length track) < 2 ^ 32 /\
    content =
      header_bytes division ++ MTrk
      ++ Py.be_bytes 4 (Z.of_nat (List.length track)) ++ track.
Proof.
  unfold midi_bytes, build_track, build_track_chunk. intros H.
  destruct (build_header division) as [h |] eqn:Hh; [| discriminate].
  apply build_header_inv in Hh as [Hd ->]. cbn [bind] in H.
  destruct (track_loop _ events [] Py.fzero) as [tr |] eqn:Htr;
    [| discriminate].
  apply track_loop_inv in Htr as (ticks & Ht & Hall & ->).
  cbn [bind app] in H.
  destruct (Py.pack_uint 4 _) as [len |] eqn:Hlen; [| discriminate].
  apply pack_uint_inv in Hlen as (Hr & -> & _).
  cbn [bind] in H. injection H as <-.
  exists ticks. split; [exact Hd |]. split; [exact Ht |].
  split; [exact Hall |]. cbv zeta. split; [apply Hr | reflexivity].
Qed.

Lemma midi_bytes_intro (events : list event) (division : Z) (ticks : list Z) :
  0 <= division < 65536 ->
  tick_deltas (ticks_per_second division) Py.fzero events = map Ok ticks ->
  Forall (fun ev => Forall (fun z => 0 <= z < 256) (snd ev)) events ->
  let track := track_bytes ticks events ++ end_of_track in
  Z.of_nat (List.length track) < 2 ^ 32 ->
  midi_bytes events division =
    Ok (header_bytes division ++ MTrk
        ++ Py.be_bytes 4 (Z.of_nat (List.length track)) ++ track).
Proof.
  intros Hd Ht Hall track Hlen.
  unfold midi_bytes, build_track, build_track_chunk.
  rewrite (build_header_intro division Hd). cbn [bind].
  rewrite (track_loop_intro _ _ [] _ ticks Ht Hall). cbn [bind app].
  fold track. rewrite pack_uint_intro by (split; [lia | exact Hlen]).
  reflexivity.
Qed.

(** The two ways a call ends. *)
Lemma write_midi_file_inv (filename : string) (division : Z) (w w' : world)
    (r : result unit) :
  write_midi_file filename division w = (r, w') ->
  events_obj w' = sort_events (events_obj w) /\
  match r with
  | Ok _ =>
      exists content,
        midi_bytes (sort_events (events_obj w)) division = Ok content /\
        files w' filename = Some content
  | Raise e =>
      midi_bytes (sort_events (events_obj w)) division = Raise e /\
      files w' = files w
  end.
Proof.
  unfold write_midi_file. cbn [set_events events_obj].
  destruct (midi_bytes (sort_events (events_obj w)) division) as [c | e];
    intros H; injection H as <- <-; cbn [write_file set_events events_obj files].
  - split; [reflexivity |]. exists c. split; [reflexivity |].
    now rewrite String.eqb_refl.
  - now repeat split.
Qed.

(** When the header fits, every delta is a value, every data byte is in
    range and the body is shorter than 2^32 bytes, the call returns and
    the file is written. *)
Lemma write_midi_file_returns (filename : string) (division : Z) (w : world)
    (ticks : list Z) :
  0 <= division < 65536 ->
  tick_deltas (ticks_per_second division) Py.fzero
    (sort_events (events_obj w)) = map Ok ticks ->
  Forall (fun ev => Forall (fun z => 0 <= z < 256) (snd ev)) (events_obj w) ->
  Z.of_nat (List.length
              (track_bytes ticks (sort_events (events_obj w))
               ++ end_of_track)) < 2 ^ 32 ->
  fst (write_midi_file filename division w) = Ok tt.
Proof.
  intros Hd Ht Hall Hlen. unfold write_midi_file.
  cbn [set_events events_obj].
  rewrite (midi_bytes_intro _ division ticks Hd Ht); [reflexivity | | exact Hlen].
  apply (Permutation_Forall (list_sort_perm _ _ (events_obj w))), Hall.
Qed.

End Writer_facts.

(** ** The chunk layout *)

Section Layout.

Lemma track_bytes_length (ticks : list Z) (events : list event) :
  List.length ticks = List.length events ->
  List.length (track_bytes ticks events) =
  (list_sum (map (fun n => List.length (encode_var_len n)) ticks)
   + list_sum (map (fun ev => List.length (snd ev)) events))%nat.
Proof.
  revert events. induction ticks as [| n ticks IH];
    intros [| [t d] events] Hlen; try discriminate; [reflexivity |].
  cbn [track_bytes map list_sum snd]. unfold event_bytes.
  cbn [List.length] in Hlen. injection Hlen as Hlen.
  rewrite !length_app, !length_map, (IH events Hlen).
  unfold list_sum. cbn [fold_right]. lia.
Qed.

(** C1. Whenever [write_midi_file] writes the file, the four bytes after
    the ["MTrk"] label, read as a big-endian integer, are the number of
    bytes that follow them to the end of the file.  Those bytes are the
    track body: for each event of the sorted list its delta as a
    variable-length quantity and its data bytes (three for an event of
    three), then the four bytes of the end-of-track event. *)
Theorem track_length_field (filename : string) (division : Z) (w w' : world) :
  write_midi_file filename division w = (Ok tt, w') ->
  exists content ticks,
    files w' filename = Some content /\
    firstn 4 (skipn 14 content) = MTrk /\
    Py.be_value (firstn 4 (skipn 18 content))
      = Z.of_nat (List.length (skipn 22 content)) /\
    tick_deltas (ticks_per_second division) Py.fzero (events_obj w')
      = map Ok ticks /\
    skipn 22 content = track_bytes ticks (events_obj w') ++ end_of_track /\
    List.length (skipn 22 content) =
      (list_sum (map (fun n => List.length (encode_var_len n)) ticks)
       + list_sum (map (fun ev => List.length (snd ev)) (events_obj w'))
       + 4)%nat.
Proof.
  intros H. apply write_midi_file_inv in H as [Hev (content & Hc & Hf)].
  apply midi_bytes_inv in Hc as (ticks & Hd & Ht & Hall & Hlen & ->).
  rewrite <- Hev in *. clear Hev.
  set (track := track_bytes ticks (events_obj w') ++ end_of_track) in *.
  exists (header_bytes division ++ MTrk
          ++ Py.be_bytes 4 (Z.of_nat (List.length track)) ++ track), ticks.
  assert (H22 : skipn 22 (header_bytes division ++ MTrk
                  ++ Py.be_bytes 4 (Z.of_nat (List.length track)) ++ track)
                = track) by reflexivity.
  assert (H18 : firstn 4 (skipn 18 (header_bytes division ++ MTrk
                  ++ Py.be_bytes 4 (Z.of_nat (List.length track)) ++ track))
                = Py.be_bytes 4 (Z.of_nat (List.length track)))
    by reflexivity.
  rewrite H22, H18.
  split; [exact Hf |]. split; [reflexivity |].
  split.
  { rewrite be_value_be_bytes. apply Z.mod_small.
    change (256 ^ Z.of_nat 4) with (2 ^ 32). lia. }
  split; [exact Ht |]. split; [reflexivity |].
  subst track. rewrite length_app, track_bytes_length.
  - reflexivity.
  - rewrite <- (length_map (@Ok Z) ticks), <- Ht. apply tick_deltas_length.
Qed.

Lemma track_length_field_witness :
  exists content ticks,
    files (snd (write_midi_file "output.mid"%string 96 (mkWorld one_note no_files)))
      "output.mid"%string = Some content /\
    firstn 4 (skipn 14 content) = MTrk /\
    Py.be_value (firstn 4 (skipn 18 content))
      = Z.of_nat (List.length (skipn 22 content)) /\
    tick_deltas (ticks_per_second 96) Py.fzero
      (events_obj
         (snd (write_midi_file "output.mid"%string 96 (mkWorld one_note no_files))))
      = map Ok ticks /\
    skipn 22 content =
      track_bytes ticks
        (events_obj
           (snd (write_midi_file "output.mid"%string 96 (mkWorld one_note no_files))))
      ++ end_of_track /\
    List.length (skipn 22 content) =
      (list_sum (map (fun n => List.length (encode_var_len n)) ticks)
       + list_sum
           (map (fun ev => List.length (snd ev))
              (events_obj
                 (snd (write_midi_file "output.mid"%string 96
                         (mkWorld one_note no_files)))))
       + 4)%nat.
Proof.
  apply (track_length_field "output.mid"%string 96 (mkWorld one_note no_files)).
  vm_compute. reflexivity.
Defined.

(** C7. Whenever [write_midi_file] writes the file, its content is the
    header chunk, that is ["MThd"], the length 6 on four bytes and the
    three 16-bit fields 0, 1 and [division], most significant byte
    first, followed by the track chunk, that is ["MTrk"], the length
    of the body on four bytes and the body; and the body ends with a
    zero delta byte and [FF 2F 00]. *)
Theorem file_layout (filename : string) (division : Z) (w w' : world) :
  write_midi_file filename division w = (Ok tt, w') ->
  exists events_part,
    let body := events_part ++ [x00; xff; x2f; x00] in
    files w' filename =
      Some (([x4d; x54; x68; x64] ++ [x00; x00; x00; x06]
             ++ [x00; x00] ++ [x00; x01]
             ++ [Py.byte_of_Z (division / 256); Py.byte_of_Z division])
            ++ ([x4d; x54; x72; x6b]
                ++ Py.be_bytes 4 (Z.of_nat (List.length body)) ++ body)) /\
    Py.be_value [Py.byte_of_Z (division / 256); Py.byte_of_Z division]
      = division /\
    Py.be_value (Py.be_bytes 4 (Z.of_nat (List.length body)))
      = Z.of_nat (List.length body).
Proof.
  intros H. apply write_midi_file_inv in H as [Hev (content & Hc & Hf)].
  apply midi_bytes_inv in Hc as (ticks & Hd & Ht & Hall & Hlen & ->).
  exists (track_bytes ticks (sort_events (events_obj w))). cbv zeta.
  split; [exact Hf |]. split.
  - change [Py.byte_of_Z (division / 256); Py.byte_of_Z division]
      with (Py.be_bytes 2 division).
    rewrite be_value_be_bytes. apply Z.mod_small.
    change (256 ^ Z.of_nat 2) with 65536. exact Hd.
  - rewrite be_value_be_bytes. apply Z.mod_small.
    change (256 ^ Z.of_nat 4) with (2 ^ 32).
    unfold end_of_track in Hlen. lia.
Qed.

Lemma file_layout_witness :
  exists events_part,
    let body := events_part ++ [x00; xff; x2f; x00] in
    files (snd (write_midi_file "output.mid"%string 96 (mkWorld one_note no_files)))
      "output.mid"%string =
      Some (([x4d; x54; x68; x64] ++ [x00; x00; x00; x06]
             ++ [x00; x00] ++ [x00; x01]
             ++ [Py.byte_of_Z (96 / 256); Py.byte_of_Z 96])
            ++ ([x4d; x54; x72; x6b]
                ++ Py.be_bytes 4 (Z.of_nat (List.length body)) ++ body)) /\
    Py.be_value [Py.byte_of_Z (96 / 256); Py.byte_of_Z 96] = 96 /\
    Py.be_value (Py.be_bytes 4 (Z.of_nat (List.length body)))
      = Z.of_nat (List.length body).
Proof.
  apply (file_layout "output.mid"%string 96 (mkWorld one_note no_files)).
  vm_compute. reflexivity.
Defined.

(** C6. With [division] 96 and the single event [(0.5, [0x90, 0x40,
    0x7F])]: there are 192 ticks to the second, the event's delta is 96
    ticks, encoded as [[0x60]]; the track body is the eight bytes
    [60 90 40 7F 00 FF 2F 00]; and the length field of the track chunk
    is [00 00 00 08]. *)
Theorem single_event_example :
  half_second = S754_finite false 4503599627370496 (-53) /\
  ticks_per_second 96 = 192 /\
  delta_ticks 192 Py.fzero half_second = Ok 96 /\
  encode_var_len 96 = [0x60] /\
  build_track [(half_second, [0x90; 0x40; 0x7F])] 96
    = Ok [x60; x90; x40; x7f; x00; xff; x2f; x00] /\
  List.length [x60; x90; x40; x7f; x00; xff; x2f; x00] = 8%nat /\
  build_track_chunk [x60; x90; x40; x7f; x00; xff; x2f; x00]
    = Ok ([x4d; x54; x72; x6b] ++ [x00; x00; x00; x08]
          ++ [x60; x90; x40; x7f; x00; xff; x2f; x00]) /\
  (let (r, w') :=
     write_midi_file "output.mid"%string 96
       (mkWorld [(half_second, [0x90; 0x40; 0x7F])] no_files) in
   r = Ok tt /\
   files w' "output.mid"%string =
     Some ([x4d; x54; x68; x64; x00; x00; x00; x06;
            x00; x00; x00; x01; x00; x60]
           ++ [x4d; x54; x72; x6b; x00; x00; x00; x08]
           ++ [x60; x90; x40; x7f; x00; xff; x2f; x00])).
Proof. repeat split; vm_compute; reflexivity. Qed.

(** C10. On an empty list of events, with a [division] that fits in 16
    bits, [write_midi_file] still writes a file, of 26 bytes: the
    14-byte header chunk, then ["MTrk"], the length 4, and a body that
    is the end-of-track event [00 FF 2F 00] alone. *)
Theorem empty_events_file (filename : string) (division : Z) (w : world) :
  events_obj w = [] -> 0 <= division < 65536 ->
  exists w',
    write_midi_file filename division w = (Ok tt, w') /\
    events_obj w' = [] /\
    files w' filename =
      Some ([x4d; x54; x68; x64; x00; x00; x00; x06; x00; x00; x00; x01;
             Py.byte_of_Z (division / 256); Py.byte_of_Z division]
            ++ [x4d; x54; x72; x6b] ++ [x00; x00; x00; x04]
            ++ [x00; xff; x2f; x00]) /\
    List.length
      ([x4d; x54; x68; x64; x00; x00; x00; x06; x00; x00; x00; x01;
        Py.byte_of_Z (division / 256); Py.byte_of_Z division]
       ++ [x4d; x54; x72; x6b] ++ [x00; x00; x00; x04]
       ++ [x00; xff; x2f; x00]) = 26%nat.
Proof.
  intros Hev Hd. unfold write_midi_file. rewrite Hev.
  cbn [sort_events list_sort set_events events_obj].
  rewrite (midi_bytes_intro [] division [] Hd eq_refl (Forall_nil _))
    by (vm_compute; reflexivity).
  eexists. split; [reflexivity |].
  cbn [write_file events_obj files]. rewrite String.eqb_refl.
  repeat split.
Qed.

Lemma empty_events_file_witness :
  exists w',
    write_midi_file "output.mid"%string 96 (mkWorld [] no_files) = (Ok tt, w') /\
    events_obj w' = [] /\
    files w' "output.mid"%string =
      Some ([x4d; x54; x68; x64; x00; x00; x00; x06; x00; x00; x00; x01;
             Py.byte_of_Z (96 / 256); Py.byte_of_Z 96]
            ++ [x4d; x54; x72; x6b] ++ [x00; x00; x00; x04]
            ++ [x00; xff; x2f; x00]) /\
    List.length
      ([x4d; x54; x68; x64; x00; x00; x00; x06; x00; x00; x00; x01;
        Py.byte_of_Z (96 / 256); Py.byte_of_Z 96]
       ++ [x4d; x54; x72; x6b] ++ [x00; x00; x00; x04]
       ++ [x00; xff; x2f; x00]) = 26%nat.
Proof.
  apply (empty_events_file "output.mid"%string 96 (mkWorld [] no_files));
    [reflexivity | lia].
Defined.

End Layout.

(** ** The timeline *)

Section Timeline.

Lemma finite_not_nan (t : Py.float) :
  Py.is_finite t = true -> Py.is_nan t = false.
Proof. now destruct t. Qed.

Lemma StronglySorted_app_r {A : Type} (R : A -> A -> Prop) (a b : list A) :
  StronglySorted R (a ++ b) -> StronglySorted R b.
Proof.
  induction a as [| x a IH]; cbn [app]; [trivial |].
  intros H. apply StronglySorted_inv in H as [H _]. now apply IH.
Qed.

Lemma StronglySorted_before {A : Type} (R : A -> A -> Prop)
    (a b : list A) (y : A) :
  StronglySorted R (a ++ y :: b) -> Forall (fun x => R x y) a.
Proof.
  induction a as [| x a IH]; cbn [app]; [constructor |].
  intros H. apply StronglySorted_inv in H as [H Hx].
  constructor; [| now apply IH].
  rewrite Forall_forall in Hx. apply Hx, in_elt.
Qed.

(** Without a NaN among the timestamps, the sorted list is in ascending
    order of time. *)
Lemma sort_events_sorted (events : list event) :
  Forall no_nan events -> StronglySorted ts_le (sort_events events).
Proof.
  intros Hnn.
  assert (Hs : StronglySorted (not_after timestamp_of Py.flt)
                 (sort_events events)).
  { apply (list_sort_sorted timestamp_of Py.flt
             (fun t => Py.is_nan t = false)); [| | exact Hnn].
    - intros a b _ _. apply flt_asym.
    - intros a b c Ha Hb Hc Hab Hbc.
      apply fle_iff_nlt in Hab, Hbc; try assumption.
      apply fle_iff_nlt; try assumption.
      now apply fle_trans with b. }
  assert (Hp : Forall no_nan (sort_events events))
    by (apply (Permutation_Forall (list_sort_perm _ _ events)), Hnn).
  induction Hs as [| x l Hs IH Hx]; [constructor |].
  inversion Hp as [| ? ? Hnx Hnl]; subst.
  constructor; [now apply IH |].
  rewrite Forall_forall in Hx, Hnl |- *. intros y Hy.
  apply fle_iff_nlt; [exact Hnx | now apply Hnl | now apply Hx].
Qed.

(** Along a list in ascending order of valid finite times, starting at
    or after [last], no delta is negative. *)
Lemma tick_deltas_sorted (tps : Z) (last : Py.float) (timeline : list event) :
  0 < tps ->
  Py.is_float64 last -> Py.is_finite last = true ->
  Forall (fun ev => Py.is_float64 (timestamp_of ev)
                    /\ Py.is_finite (timestamp_of ev) = true) timeline ->
  Forall (fun ev => Py.fle last (timestamp_of ev) = true) timeline ->
  StronglySorted ts_le timeline ->
  Forall delta_ok (tick_deltas tps last timeline).
Proof.
  intros Htps. revert last.
  induction timeline as [| [t d] timeline IH];
    intros last Vl Fl Hok Hle Hs; cbn [tick_deltas]; [constructor |].
  inversion Hok as [| ? ? [Vt Ft] Hok']; subst.
  inversion Hle as [| ? ? Hlt _]; subst.
  apply StronglySorted_inv in Hs as [Hs Ht].
  cbn [timestamp_of fst] in *.
  constructor.
  - now apply delta_ticks_nonneg.
  - now apply IH.
Qed.

(** C4, as the program has it.  For events whose timestamps are finite
    and not below zero, in any order, and a positive [division]: the
    sorted list holds the same events in ascending order of time, and
    every delta computed along it, the first one against 0.0, is not
    negative (when the gap times the rate is too large for a float,
    there is no delta: [round] raises OverflowError). *)
Theorem timeline_sorted_nonneg (events : list event) (division : Z) :
  0 < division ->
  Forall (fun ev => time_ok (timestamp_of ev)) events ->
  Permutation events (sort_events events) /\
  StronglySorted
    (fun x y => Py.fle (timestamp_of x) (timestamp_of y) = true)
    (sort_events events) /\
  Forall delta_ok
    (tick_deltas (ticks_per_second division) Py.fzero (sort_events events)).
Proof.
  intros Hd Hok.
  assert (Hp : Permutation events (sort_events events))
    by apply list_sort_perm.
  assert (Hs : StronglySorted ts_le (sort_events events)).
  { apply sort_events_sorted. eapply Forall_impl; [| exact Hok].
    intros ev (_ & Hf & _). now apply finite_not_nan. }
  split; [exact Hp |]. split; [exact Hs |].
  pose proof (Permutation_Forall Hp Hok) as Hok'.
  apply tick_deltas_sorted; try assumption; try reflexivity.
  - unfold ticks_per_second. lia.
  - eapply Forall_impl; [| exact Hok']. now intros ev (Hv & Hf & _).
  - eapply Forall_impl; [| exact Hok']. now intros ev (_ & _ & Hz).
Qed.

Lemma timeline_sorted_nonneg_witness :
  let events :=
    [(Py.dyadic 1 0, [0x90; 0x3C; 0x64]); (half_second, [0x90; 0x40; 0x7F])] in
  Permutation events (sort_events events) /\
  StronglySorted
    (fun x y => Py.fle (timestamp_of x) (timestamp_of y) = true)
    (sort_events events) /\
  Forall delta_ok
    (tick_deltas (ticks_per_second 96) Py.fzero (sort_events events)).
Proof.
  apply (timeline_sorted_nonneg
           [(Py.dyadic 1 0, [0x90; 0x3C; 0x64]);
            (half_second, [0x90; 0x40; 0x7F])] 96).
  - lia.
  - repeat constructor.
Defined.

(** C4, as the specification has it, fails for an event before the
    session start: one event at -1.0 second, with [division] 96, has a
    delta of -192 ticks.  The sort cannot help, and there is no clamp. *)
Lemma negative_first_delta :
  let events := [(Py.dyadic (-1) 0, [0x90; 0x40; 0x7F])] in
  tick_deltas (ticks_per_second 96) Py.fzero (sort_events events)
    = [Ok (-192)] /\
  ~ (forall n,
       In (Ok n)
          (tick_deltas (ticks_per_second 96) Py.fzero (sort_events events)) ->
       0 <= n).
Proof.
  cbv zeta.
  assert (H : tick_deltas (ticks_per_second 96) Py.fzero
                (sort_events [(Py.dyadic (-1) 0, [0x90; 0x40; 0x7F])])
              = [Ok (-192)]) by (vm_compute; reflexivity).
  split; [exact H |]. rewrite H. intros Hall.
  specialize (Hall (-192) (or_introl eq_refl)). lia.
Qed.

End Timeline.

(** ** Stability and the caller's list *)

Section Stability.

Lemma at_time_block (t : Py.float) (x y : event) :
  at_time t x = true -> at_time t y = true ->
  Py.flt (timestamp_of y) (timestamp_of x) = false.
Proof. unfold at_time. apply feq_nlt. Qed.

(** The events at one time are in the sorted list in the order they had. *)
Lemma sort_events_stable (t : Py.float) (events : list event) :
  filter (at_time t) (sort_events events) = filter (at_time t) events.
Proof. apply list_sort_filter, at_time_block. Qed.

Lemma tick_deltas_app (tps : Z) (last : Py.float) (a b : list event)
    (e : event) :
  tick_deltas tps last (a ++ e :: b) =
  tick_deltas tps last (a ++ [e]) ++ tick_deltas tps (timestamp_of e) b.
Proof.
  revert last. induction a as [| [t d] a IH]; intros last; cbn [app tick_deltas].
  - now destruct e.
  - now rewrite IH.
Qed.

(** Events that are all at the time of the one before them are zero
    ticks apart. *)
Lemma tick_deltas_same (tps : Z) (t last : Py.float) (l : list event) :
  0 <= tps < 2 ^ 53 ->
  Py.is_finite t = true -> Py.feq last t = true ->
  Forall (fun ev => at_time t ev = true) l ->
  tick_deltas tps last l = map (fun _ => Ok 0) l.
Proof.
  intros Htps Ft. revert last.
  induction l as [| [t' d] l IH]; intros last Hlast Hl;
    cbn [tick_deltas map]; [reflexivity |].
  inversion Hl as [| ? ? Ht' Hl']; subst.
  unfold at_time in Ht'. cbn [timestamp_of fst] in Ht'.
  rewrite delta_ticks_zero, (IH t' Ht' Hl'); try assumption; [reflexivity | |].
  - apply feq_finite with t; [now apply feq_sym | exact Ft].
  - apply feq_trans with t; [exact Hlast | now apply feq_sym].
Qed.

(** C5. Take a list, with no NaN among its timestamps, in which [e1]
    comes before [e2] and both are at the same finite time, and a
    [division] that fits in 16 bits.  In the sorted list [e1] still
    comes before [e2]; between them are exactly the events that were
    between them with that same time, in the order they had; and every
    delta from [e1] on, up to and including that of [e2], is zero. *)
Theorem equal_timestamps_keep_order (division : Z)
    (l1 l2 l3 : list event) (e1 e2 : event) :
  0 <= division < 65536 ->
  Forall (fun ev => Py.is_nan (timestamp_of ev) = false)
    (l1 ++ e1 :: l2 ++ e2 :: l3) ->
  Py.is_finite (timestamp_of e1) = true ->
  Py.feq (timestamp_of e1) (timestamp_of e2) = true ->
  exists s1 s3,
    let between := filter (at_time (timestamp_of e1)) l2 in
    sort_events (l1 ++ e1 :: l2 ++ e2 :: l3)
      = s1 ++ e1 :: between ++ e2 :: s3 /\
    tick_deltas (ticks_per_second division) Py.fzero
      (sort_events (l1 ++ e1 :: l2 ++ e2 :: l3))
      = tick_deltas (ticks_per_second division) Py.fzero (s1 ++ [e1])
        ++ map (fun _ => Ok 0) (between ++ [e2])
        ++ tick_deltas (ticks_per_second division) (timestamp_of e2) s3.
Proof.
  intros Hd Hnn Ff Heq.
  set (l := l1 ++ e1 :: l2 ++ e2 :: l3) in *.
  set (t := timestamp_of e1) in *.
  assert (Hn1 : Py.is_nan t = false) by now apply finite_not_nan.
  assert (Hq1 : at_time t e1 = true) by now apply feq_refl.
  assert (Hq2 : at_time t e2 = true) by now apply feq_sym.
  (* where the two events are in the sorted list *)
  pose proof (sort_events_stable t l) as Hst.
  unfold l in Hst at 2.
  rewrite filter_app in Hst. cbn [filter] in Hst. rewrite Hq1 in Hst.
  rewrite filter_app in Hst. cbn [filter] in Hst. rewrite Hq2 in Hst.
  apply filter_split in Hst as (s1 & r & Hl & _ & Hr).
  apply filter_split in Hr as (s2 & s3 & -> & Hs2 & _).
  (* what lies between them is at their time *)
  assert (Hsorted : StronglySorted ts_le (sort_events l))
    by now apply sort_events_sorted.
  assert (Hnn' : Forall no_nan (sort_events l))
    by (apply (Permutation_Forall (list_sort_perm _ _ l)), Hnn).
  rewrite Hl in Hsorted, Hnn'.
  apply StronglySorted_app_r in Hsorted.
  apply StronglySorted_inv in Hsorted as [Hs2e2 He1].
  apply StronglySorted_before in Hs2e2.
  apply Forall_app in He1 as [He1 _].
  assert (Hall : Forall (fun ev => at_time t ev = true) s2).
  { rewrite Forall_forall in He1, Hs2e2 |- *. intros x Hx.
    unfold at_time. apply fle_sandwich with (timestamp_of e2);
      [now apply He1 | now apply Hs2e2 | exact Heq]. }
  assert (Hid : filter (at_time t) s2 = s2).
  { apply forallb_filter_id, forallb_forall.
    now rewrite <- Forall_forall. }
  rewrite Hid in Hs2. subst s2.
  exists s1, s3. cbv zeta. split; [exact Hl |].
  rewrite Hl, tick_deltas_app. f_equal.
  rewrite tick_deltas_app. f_equal.
  apply tick_deltas_same with t.
  - unfold ticks_per_second. change (2 ^ 53) with 9007199254740992. lia.
  - exact Ff.
  - exact Hq1.
  - apply Forall_app. split; [| now repeat constructor].
    apply Forall_forall. intros x Hx. apply filter_In in Hx. apply Hx.
Qed.

Lemma equal_timestamps_keep_order_witness :
  exists s1 s3,
    let between :=
      filter (at_time (timestamp_of (half_second, [0x90; 0x40; 0x7F]))) [] in
    sort_events
      ([(Py.dyadic 1 0, [0x90; 0x3C; 0x64])]
       ++ (half_second, [0x90; 0x40; 0x7F])
       :: [] ++ (half_second, [0x90; 0x43; 0x7F]) :: [])
      = s1 ++ (half_second, [0x90; 0x40; 0x7F])
        :: between ++ (half_second, [0x90; 0x43; 0x7F]) :: s3 /\
    tick_deltas (ticks_per_second 96) Py.fzero
      (sort_events
         ([(Py.dyadic 1 0, [0x90; 0x3C; 0x64])]
          ++ (half_second, [0x90; 0x40; 0x7F])
          :: [] ++ (half_second, [0x90; 0x43; 0x7F]) :: []))
      = tick_deltas (ticks_per_second 96) Py.fzero
          (s1 ++ [(half_second, [0x90; 0x40; 0x7F])])
        ++ map (fun _ => Ok 0)
             (between ++ [(half_second, [0x90; 0x43; 0x7F])])
        ++ tick_deltas (ticks_per_second 96)
             (timestamp_of (half_second, [0x90; 0x43; 0x7F])) s3.
Proof.
  apply (equal_timestamps_keep_order 96
           [(Py.dyadic 1 0, [0x90; 0x3C; 0x64])] [] []
           (half_second, [0x90; 0x40; 0x7F])
           (half_second, [0x90; 0x43; 0x7F])).
  - lia.
  - repeat constructor.
  - reflexivity.
  - reflexivity.
Defined.

(** C9, as the program has it.  [write_midi_file] sorts the caller's
    list in place: with no NaN among the timestamps, when the call
    ends, with a file written or with an exception, the list holds the
    same events in ascending order of time, and the events at any one
    time are in the order they had. *)
Theorem write_midi_file_sorts_in_place (filename : string) (division : Z)
    (w : world) :
  Forall (fun ev => Py.is_nan (timestamp_of ev) = false) (events_obj w) ->
  Permutation (events_obj w)
    (events_obj (snd (write_midi_file filename division w))) /\
  StronglySorted
    (fun x y => Py.fle (timestamp_of x) (timestamp_of y) = true)
    (events_obj (snd (write_midi_file filename division w))) /\
  (forall t,
     filter (at_time t) (events_obj (snd (write_midi_file filename division w)))
     = filter (at_time t) (events_obj w)).
Proof.
  intros Hnn.
  destruct (write_midi_file filename division w) as [r w'] eqn:Hw.
  apply write_midi_file_inv in Hw as [Hev _]. cbn [snd]. rewrite Hev.
  split; [apply list_sort_perm |].
  split; [now apply sort_events_sorted | intros t; apply sort_events_stable].
Qed.

Lemma write_midi_file_sorts_in_place_witness :
  let w := mkWorld [(Py.dyadic 1 0, [0x90; 0x3C; 0x64]);
                    (half_second, [0x90; 0x40; 0x7F]);
                    (Py.dyadic 1 0, [0x80; 0x3C; 0x00])] no_files in
  Permutation (events_obj w)
    (events_obj (snd (write_midi_file "output.mid"%string 96 w))) /\
  StronglySorted
    (fun x y => Py.fle (timestamp_of x) (timestamp_of y) = true)
    (events_obj (snd (write_midi_file "output.mid"%string 96 w))) /\
  (forall t,
     filter (at_time t)
       (events_obj (snd (write_midi_file "output.mid"%string 96 w)))
     = filter (at_time t) (events_obj w)).
Proof.
  apply (write_midi_file_sorts_in_place "output.mid"%string 96
           (mkWorld [(Py.dyadic 1 0, [0x90; 0x3C; 0x64]);
                     (half_second, [0x90; 0x40; 0x7F]);
                     (Py.dyadic 1 0, [0x80; 0x3C; 0x00])] no_files)).
  repeat constructor.
Defined.

(** C9, as the specification has it, fails for a list that is not in
    order: the call returns, the file is written, and the caller's list
    has its two events the other way round. *)
Lemma write_midi_file_reorders_events :
  let e1 := (Py.dyadic 1 0, [0x90; 0x3C; 0x64]) in
  let e2 := (half_second, [0x90; 0x40; 0x7F]) in
  let w := mkWorld [e1; e2] no_files in
  fst (write_midi_file "output.mid"%string 96 w) = Ok tt /\
  events_obj (snd (write_midi_file "output.mid"%string 96 w)) = [e2; e1] /\
  events_obj (snd (write_midi_file "output.mid"%string 96 w)) <> events_obj w.
Proof.
  cbv zeta. split; [vm_compute; reflexivity |].
  split; [vm_compute; reflexivity |]. vm_compute. discriminate.
Qed.

End Stability.

(** * Further properties *)

(** ** More on the variable-length quantities *)

Section VLQ_more.

(** A byte with the continuation bit. *)
Lemma encode_loop_cont (n : Z) (bytes_list : list Z) :
  Forall (fun b => 128 <= b < 256) bytes_list ->
  Forall (fun b => 128 <= b < 256) (encode_loop n bytes_list).
Proof.
  funelim (encode_loop n bytes_list); intros Hl; [| assumption].
  apply H. constructor; [| assumption].
  rewrite land_127.
  pose proof (Z.mod_pos_bound (Z.shiftr n 7) 128 ltac:(lia)) as Hm.
  rewrite lor_128_small by exact Hm. lia.
Qed.

Lemma encode_var_len_split (n : Z) :
  encode_var_len n = encode_loop n [] ++ [n mod 128].
Proof.
  unfold encode_var_len. rewrite land_127.
  change [n mod 128] with ([] ++ [n mod 128]) at 1.
  apply encode_loop_app.
Qed.

(** Decoding what the encoder returns, with anything after it. *)
Lemma decode_encode_var_len (n : Z) (rest : list Z) :
  0 <= n -> decode_var_len (encode_var_len n ++ rest) = Some (n, rest).
Proof.
  intros Hn. unfold decode_var_len, encode_var_len.
  rewrite <- encode_loop_app, decode_encode_loop by assumption.
  rewrite land_127.
  pose proof (Z.mod_pos_bound n 128 ltac:(lia)) as Hm.
  cbn [app decode_from].
  rewrite land_128_small by exact Hm.
  change (0 =? 0) with true. cbv iota.
  rewrite land_127, Z.mod_mod by lia.
  do 2 f_equal. pose proof (Z.div_mod n 128 ltac:(lia)). lia.
Qed.

(** X1. The encoding is self-delimiting: for every [n >= 0] and every
    bytes [rest] that follow it, decoding [encode_var_len n ++ rest]
    gives [n] and leaves exactly [rest]. *)
Theorem encode_var_len_self_delimiting (n : Z) (rest : list Z) :
  0 <= n -> decode_var_len (encode_var_len n ++ rest) = Some (n, rest).
Proof. apply decode_encode_var_len. Qed.

Lemma encode_var_len_self_delimiting_witness :
  0 <= 300 /\
  decode_var_len (encode_var_len 300 ++ [0x90; 0x40; 0x7F])
    = Some (300, [0x90; 0x40; 0x7F]).
Proof.
  split; [lia |].
  apply (encode_var_len_self_delimiting 300 [0x90; 0x40; 0x7F]); lia.
Defined.

(** X2. Whatever [n] is, [encode_var_len n] is a run of bytes with the
    continuation bit (128 to 255) followed by one last byte without it
    (0 to 127), and that last byte is [n mod 128]. *)
Theorem encode_var_len_continuation (n : Z) :
  exists init,
    encode_var_len n = init ++ [n mod 128] /\
    Forall (fun b => 128 <= b < 256) init /\
    0 <= n mod 128 < 128.
Proof.
  exists (encode_loop n []). split; [apply encode_var_len_split |].
  split; [apply encode_loop_cont; constructor |].
  apply Z.mod_pos_bound. lia.
Qed.

(** The number of bytes the loop adds. *)
Lemma encode_loop_length (n : Z) (bytes_list : list Z) (k : nat) :
  0 <= n ->
  (List.length (encode_loop n bytes_list) <= List.length bytes_list + k)%nat
  <-> n < 128 ^ (Z.of_nat k + 1).
Proof.
  revert k. funelim (encode_loop n bytes_list); intros k Hn.
  - assert (Hq : 0 <= Z.shiftr n 7)
      by (rewrite shiftr_7; apply Z.div_pos; lia).
    destruct k as [| k].
    + split; intros Hk.
      * exfalso.
        assert (Hlen : (S (List.length bytes_list)
                        <= List.length
                             (encode_loop (Z.shiftr n 7)
                                (Z.lor (Z.land (Z.shiftr n 7) 127) 128
                                 :: bytes_list)))%nat).
        { clear. set (c := Z.lor _ _).
          change (c :: bytes_list) with ([] ++ c :: bytes_list).
          rewrite encode_loop_app, length_app. cbn [List.length]. lia. }
        lia.
      * change (128 ^ (Z.of_nat 0 + 1)) with 128 in Hk. lia.
    + rewrite (Nat.add_succ_r (List.length bytes_list) k).
      change (S (List.length bytes_list + k))
        with (List.length (Z.lor (Z.land (Z.shiftr n 7) 127) 128
                           :: bytes_list) + k)%nat.
      rewrite (H k Hq), shiftr_7.
      rewrite Nat2Z.inj_succ.
      replace (Z.succ (Z.of_nat k) + 1) with (Z.succ (Z.of_nat k + 1)) by lia.
      rewrite Z.pow_succ_r by lia.
      assert (Hp : 0 < 128 ^ (Z.of_nat k + 1))
        by (apply Z.pow_pos_nonneg; lia).
      split; intros Hk.
      * pose proof (Z.div_mod n 128 ltac:(lia)).
        pose proof (Z.mod_pos_bound n 128 ltac:(lia)). lia.
      * apply Z.div_lt_upper_bound; lia.
  - split; intros _; [| lia].
    apply Z.lt_le_trans with (128 ^ 1); [cbn; lia |].
    apply Z.pow_le_mono_r; lia.
Qed.

(** X3. For [n >= 0] and [k >= 1], [encode_var_len n] has at most [k]
    bytes exactly when [n < 128^k]: one byte up to 127, two up to
    16383, four up to 2^28 - 1, and never a leading group of zeros. *)
Theorem encode_var_len_length (n : Z) (k : nat) :
  0 <= n -> (1 <= k)%nat ->
  (List.length (encode_var_len n) <= k)%nat <-> n < 128 ^ Z.of_nat k.
Proof.
  intros Hn Hk. unfold encode_var_len.
  destruct k as [| k]; [lia |].
  replace (Z.of_nat (S k)) with (Z.of_nat k + 1) by lia.
  rewrite <- (encode_loop_length n [Z.land n 127] k Hn).
  cbn [List.length]. lia.
Qed.

Lemma encode_var_len_length_witness :
  0 <= 16383 /\ (1 <= 2)%nat /\
  ((List.length (encode_var_len 16383) <= 2)%nat <-> 16383 < 128 ^ Z.of_nat 2).
Proof.
  split; [lia |]. split; [lia |].
  apply (encode_var_len_length 16383 2); lia.
Defined.

(** X4. On the non-negative integers the encoder is one-to-one. *)
Theorem encode_var_len_injective (n m : Z) :
  0 <= n -> 0 <= m -> encode_var_len n = encode_var_len m -> n = m.
Proof.
  intros Hn Hm Heq.
  pose proof (decode_encode_var_len n [] Hn) as H1.
  pose proof (decode_encode_var_len m [] Hm) as H2.
  rewrite Heq, H2 in H1. now injection H1.
Qed.

Lemma encode_var_len_injective_witness :
  0 <= 128 /\ encode_var_len 128 = encode_var_len (64 + 64) /\ 128 = 64 + 64.
Proof.
  split; [lia |]. split; [reflexivity |].
  apply (encode_var_len_injective 128 (64 + 64)); [lia | lia | reflexivity].
Defined.

End VLQ_more.

(** ** More on [write_midi_file] *)

Section Writer_more.

(** X5. A [division] that does not fit in sixteen bits makes
    [struct.pack] raise: the call ends with struct.error and no file is
    written or changed.  The caller's list has been handled all the
    same: it holds the same events, and, with no NaN among the
    timestamps, in ascending order of time, the events at any one time
    in the order they had. *)
Theorem write_midi_file_bad_division (filename : string) (division : Z)
    (w : world) :
  division < 0 \/ 65535 < division ->
  fst (write_midi_file filename division w) = Raise StructError /\
  files (snd (write_midi_file filename division w)) = files w /\
  Permutation (events_obj w)
    (events_obj (snd (write_midi_file filename division w))) /\
  (Forall (fun ev => Py.is_nan (timestamp_of ev) = false) (events_obj w) ->
   StronglySorted
     (fun x y => Py.fle (timestamp_of x) (timestamp_of y) = true)
     (events_obj (snd (write_midi_file filename division w))) /\
   forall t,
     filter (at_time t) (events_obj (snd (write_midi_file filename division w)))
     = filter (at_time t) (events_obj w)).
Proof.
  intros Hd.
  assert (Hh : build_header division = Raise StructError).
  { unfold build_header.
    change (Py.pack_uint 4 6) with (Ok (A := list byte) [x00; x00; x00; x06]).
    change (Py.pack_uint 2 0) with (Ok (A := list byte) [x00; x00]).
    change (Py.pack_uint 2 1) with (Ok (A := list byte) [x00; x01]).
    cbn [bind]. unfold Py.pack_uint.
    change (256 ^ Z.of_nat 2) with 65536.
    destruct (Z.leb_spec 0 division), (Z.ltb_spec division 65536);
      try lia; reflexivity. }
  unfold write_midi_file, midi_bytes. rewrite Hh.
  cbn [bind fst snd set_events files events_obj].
  split; [reflexivity |]. split; [reflexivity |].
  split; [apply list_sort_perm |].
  intros Hnn.
  split; [now apply sort_events_sorted | intros t; apply sort_events_stable].
Qed.

Lemma write_midi_file_bad_division_witness :
  let w := mkWorld [(Py.dyadic 1 0, [0x90; 0x3C; 0x64]);
                    (half_second, [0x90; 0x40; 0x7F])] no_files in
  fst (write_midi_file "output.mid"%string 65536 w) = Raise StructError /\
  files (snd (write_midi_file "output.mid"%string 65536 w)) = files w /\
  Permutation (events_obj w)
    (events_obj (snd (write_midi_file "output.mid"%string 65536 w))) /\
  (Forall (fun ev => Py.is_nan (timestamp_of ev) = false) (events_obj w) ->
   StronglySorted
     (fun x y => Py.fle (timestamp_of x) (timestamp_of y) = true)
     (events_obj (snd (write_midi_file "output.mid"%string 65536 w))) /\
   forall t,
     filter (at_time t)
       (events_obj (snd (write_midi_file "output.mid"%string 65536 w)))
     = filter (at_time t) (events_obj w)).
Proof.
  apply (write_midi_file_bad_division "output.mid"%string 65536
           (mkWorld [(Py.dyadic 1 0, [0x90; 0x3C; 0x64]);
                     (half_second, [0x90; 0x40; 0x7F])] no_files)).
  right. lia.
Defined.

(** X6. The call touches no file but the one it is given the name of. *)
Theorem write_midi_file_other_files (filename other : string) (division : Z)
    (w : world) :
  other <> filename ->
  files (snd (write_midi_file filename division w)) other = files w other.
Proof.
  intros Hne. unfold write_midi_file.
  destruct (midi_bytes _ division); cbn [snd write_file set_events files];
    [| reflexivity].
  apply String.eqb_neq in Hne. now rewrite Hne.
Qed.

Lemma write_midi_file_other_files_witness :
  files (snd (write_midi_file "output.mid"%string 96
                (mkWorld one_note no_files))) "other.mid"%string
  = files (mkWorld one_note no_files) "other.mid"%string.
Proof.
  apply (write_midi_file_other_files "output.mid"%string "other.mid"%string
           96 (mkWorld one_note no_files)).
  discriminate.
Defined.

(** What a call that returns says of the list it was given. *)
Lemma write_midi_file_ok_inv (filename : string) (division : Z) (w : world) :
  fst (write_midi_file filename division w) = Ok tt ->
  exists ticks,
    tick_deltas (ticks_per_second division) Py.fzero
      (sort_events (events_obj w)) = map Ok ticks /\
    Forall (fun ev => Forall (fun z => 0 <= z < 256) (snd ev)) (events_obj w).
Proof.
  intros H.
  destruct (write_midi_file filename division w) as [r w'] eqn:Hw.
  cbn [fst] in H. subst r.
  apply write_midi_file_inv in Hw as [_ (content & Hc & _)].
  apply midi_bytes_inv in Hc as (ticks & _ & Ht & Hall & _).
  exists ticks. split; [exact Ht |].
  apply (Permutation_Forall
           (Permutation_sym
              (list_sort_perm timestamp_of Py.flt (events_obj w)))), Hall.
Qed.

Lemma write_midi_file_raise_files (filename : string) (division : Z)
    (w : world) :
  fst (write_midi_file filename division w) <> Ok tt ->
  raises (fst (write_midi_file filename division w)) /\
  files (snd (write_midi_file filename division w)) = files w.
Proof.
  unfold write_midi_file. destruct (midi_bytes _ division) as [c | e];
    cbn [fst snd set_events files]; intros H; [now elim H |].
  split; [now exists e | reflexivity].
Qed.

(** X7. A data value outside 0..255 in any event makes the call raise,
    and no file is written or changed. *)
Theorem write_midi_file_bad_data (filename : string) (division : Z)
    (w : world) (ev : event) (z : Z) :
  In ev (events_obj w) -> In z (snd ev) -> z < 0 \/ 255 < z ->
  raises (fst (write_midi_file filename division w)) /\
  files (snd (write_midi_file filename division w)) = files w.
Proof.
  intros Hev Hz Hrange. apply write_midi_file_raise_files. intros Hok.
  apply write_midi_file_ok_inv in Hok as (_ & _ & Hall).
  rewrite Forall_forall in Hall. specialize (Hall ev Hev).
  rewrite Forall_forall in Hall. specialize (Hall z Hz). lia.
Qed.

Lemma write_midi_file_bad_data_witness :
  raises (fst (write_midi_file "output.mid"%string 96
                 (mkWorld [(half_second, [0x90; 0x40; 256])] no_files))) /\
  files (snd (write_midi_file "output.mid"%string 96
                (mkWorld [(half_second, [0x90; 0x40; 256])] no_files)))
  = files (mkWorld [(half_second, [0x90; 0x40; 256])] no_files).
Proof.
  apply (write_midi_file_bad_data "output.mid"%string 96
           (mkWorld [(half_second, [0x90; 0x40; 256])] no_files)
           (half_second, [0x90; 0x40; 256]) 256).
  - left. reflexivity.
  - right. right. left. reflexivity.
  - right. lia.
Defined.

(** The delta of an event whose time is a NaN or an infinity is never a
    value. *)
Lemma delta_ticks_not_finite (tps : Z) (last t : Py.float) :
  Py.is_finite t = false -> raises (delta_ticks tps last t).
Proof.
  intros Ht. unfold delta_ticks, Py.fmul_int.
  assert (Hs : Py.is_finite (Py.fsub t last) = false).
  { destruct t as [s | s | | s m e]; try discriminate Ht;
      destruct last as [s' | s' | | s' m' e']; cbn; try reflexivity;
      destruct s, s'; reflexivity. }
  destruct (Py.float_of_int tps) as [y | e]; cbn [bind]; [| now exists e].
  assert (Hm : Py.is_finite (Py.fmul (Py.fsub t last) y) = false).
  { destruct (Py.fsub t last) as [s | s | | s m e]; try discriminate Hs;
      destruct y; reflexivity. }
  destruct (Py.fmul (Py.fsub t last) y); try discriminate; cbn [Py.round];
    eexists; reflexivity.
Qed.

Lemma tick_deltas_not_finite (tps : Z) (last : Py.float) (l : list event)
    (ev : event) (ticks : list Z) :
  In ev l -> Py.is_finite (timestamp_of ev) = false ->
  tick_deltas tps last l <> map Ok ticks.
Proof.
  revert last ticks. induction l as [| [t d] l IH]; intros last ticks Hin Hf;
    [contradiction |].
  cbn [tick_deltas]. destruct ticks as [| n ticks]; [discriminate |].
  cbn [map]. intros Heq. injection Heq as Hn Hrest.
  destruct Hin as [<- | Hin].
  - destruct (delta_ticks_not_finite tps last t Hf) as [e He].
    rewrite He in Hn. discriminate.
  - exact (IH _ _ Hin Hf Hrest).
Qed.

(** X8. A timestamp that is a NaN or an infinity, in any event, makes
    the call raise, and no file is written or changed. *)
Theorem write_midi_file_bad_time (filename : string) (division : Z)
    (w : world) (ev : event) :
  In ev (events_obj w) -> Py.is_finite (timestamp_of ev) = false ->
  raises (fst (write_midi_file filename division w)) /\
  files (snd (write_midi_file filename division w)) = files w.
Proof.
  intros Hev Hf. apply write_midi_file_raise_files. intros Hok.
  apply write_midi_file_ok_inv in Hok as (ticks & Ht & _).
  revert Ht. apply tick_deltas_not_finite with ev; [| exact Hf].
  apply (Permutation_in _ (list_sort_perm timestamp_of Py.flt (events_obj w))),
    Hev.
Qed.

Lemma write_midi_file_bad_time_witness :
  raises (fst (write_midi_file "output.mid"%string 96
                 (mkWorld [(S754_nan, [0x90; 0x40; 0x7F])] no_files))) /\
  files (snd (write_midi_file "output.mid"%string 96
                (mkWorld [(S754_nan, [0x90; 0x40; 0x7F])] no_files)))
  = files (mkWorld [(S754_nan, [0x90; 0x40; 0x7F])] no_files).
Proof.
  apply (write_midi_file_bad_time "output.mid"%string 96
           (mkWorld [(S754_nan, [0x90; 0x40; 0x7F])] no_files)
           (S754_nan, [0x90; 0x40; 0x7F])).
  - left. reflexivity.
  - reflexivity.
Defined.

(** X9. A list in which no event is earlier than the one before it is
    left as it is. *)
Theorem write_midi_file_keeps_sorted (filename : string) (division : Z)
    (w : world) :
  Sorted (fun x y => Py.flt (timestamp_of y) (timestamp_of x) = false)
    (events_obj w) ->
  events_obj (snd (write_midi_file filename division w)) = events_obj w.
Proof.
  intros Hs.
  destruct (write_midi_file filename division w) as [r w'] eqn:Hw.
  apply write_midi_file_inv in Hw as [Hev _]. cbn [snd]. rewrite Hev.
  now apply list_sort_sorted_id.
Qed.

Lemma write_midi_file_keeps_sorted_witness :
  events_obj
    (snd (write_midi_file "output.mid"%string 96
            (mkWorld [(half_second, [0x90; 0x40; 0x7F]);
                      (half_second, [0x90; 0x43; 0x7F]);
                      (Py.dyadic 1 0, [0x80; 0x40; 0x00])] no_files)))
  = events_obj
      (mkWorld [(half_second, [0x90; 0x40; 0x7F]);
                (half_second, [0x90; 0x43; 0x7F]);
                (Py.dyadic 1 0, [0x80; 0x40; 0x00])] no_files).
Proof.
  apply (write_midi_file_keeps_sorted "output.mid"%string 96
           (mkWorld [(half_second, [0x90; 0x40; 0x7F]);
                     (half_second, [0x90; 0x43; 0x7F]);
                     (Py.dyadic 1 0, [0x80; 0x40; 0x00])] no_files)).
  repeat constructor.
Defined.

Lemma sort_events_idempotent (events : list event) :
  Forall no_nan events -> sort_events (sort_events events) = sort_events events.
Proof.
  intros Hnn. apply list_sort_sorted_id, StronglySorted_Sorted.
  apply (list_sort_sorted timestamp_of Py.flt
           (fun t => Py.is_nan t = false)); [| | exact Hnn].
  - intros a b _ _. apply flt_asym.
  - intros a b c Ha Hb Hc Hab Hbc.
    apply fle_iff_nlt in Hab, Hbc; try assumption.
    apply fle_iff_nlt; try assumption.
    now apply fle_trans with b.
Qed.

(** X10. Calling again changes nothing: with no NaN among the
    timestamps, a second call with the list and the files the first one
    left ends the same way, leaves the list as it is and every file
    with the content it had. *)
Theorem write_midi_file_twice (filename : string) (division : Z) (w : world) :
  Forall (fun ev => Py.is_nan (timestamp_of ev) = false) (events_obj w) ->
  let w1 := snd (write_midi_file filename division w) in
  fst (write_midi_file filename division w1)
    = fst (write_midi_file filename division w) /\
  events_obj (snd (write_midi_file filename division w1)) = events_obj w1 /\
  forall f, files (snd (write_midi_file filename division w1)) f = files w1 f.
Proof.
  intros Hnn. cbv zeta.
  pose proof (sort_events_idempotent _ Hnn) as Hid.
  destruct (midi_bytes (sort_events (events_obj w)) division) as [c | e] eqn:Hc.
  - assert (H1 : write_midi_file filename division w
                 = (Ok tt, write_file filename c
                             (set_events (sort_events (events_obj w)) w))).
    { unfold write_midi_file. cbn [set_events events_obj]. now rewrite Hc. }
    rewrite H1. cbn [snd fst].
    assert (H2 : write_midi_file filename division
                   (write_file filename c
                      (set_events (sort_events (events_obj w)) w))
                 = (Ok tt,
                    write_file filename c
                      (set_events (sort_events (events_obj w))
                         (write_file filename c
                            (set_events (sort_events (events_obj w)) w))))).
    { unfold write_midi_file. cbn [write_file set_events events_obj].
      now rewrite Hid, Hc. }
    rewrite H2. cbn [snd fst write_file set_events events_obj files].
    split; [reflexivity |]. split; [reflexivity |].
    intros f. now destruct (String.eqb f filename).
  - assert (H1 : write_midi_file filename division w
                 = (Raise e, set_events (sort_events (events_obj w)) w)).
    { unfold write_midi_file. cbn [set_events events_obj]. now rewrite Hc. }
    rewrite H1. cbn [snd fst].
    assert (H2 : write_midi_file filename division
                   (set_events (sort_events (events_obj w)) w)
                 = (Raise e,
                    set_events (sort_events (events_obj w))
                      (set_events (sort_events (events_obj w)) w))).
    { unfold write_midi_file. cbn [set_events events_obj].
      now rewrite Hid, Hc. }
    rewrite H2. cbn [snd fst set_events events_obj files].
    split; [reflexivity |]. split; reflexivity.
Qed.

Lemma write_midi_file_twice_witness :
  let w := mkWorld [(Py.dyadic 1 0, [0x90; 0x3C; 0x64]);
                    (half_second, [0x90; 0x40; 0x7F])] no_files in
  let w1 := snd (write_midi_file "output.mid"%string 96 w) in
  fst (write_midi_file "output.mid"%string 96 w1)
    = fst (write_midi_file "output.mid"%string 96 w) /\
  events_obj (snd (write_midi_file "output.mid"%string 96 w1))
    = events_obj w1 /\
  forall f,
    files (snd (write_midi_file "output.mid"%string 96 w1)) f = files w1 f.
Proof.
  apply (write_midi_file_twice "output.mid"%string 96
           (mkWorld [(Py.dyadic 1 0, [0x90; 0x3C; 0x64]);
                     (half_second, [0x90; 0x40; 0x7F])] no_files)).
  repeat constructor.
Defined.

End Writer_more.

(** ** Reading the track back *)

Section Track_round_trip.

Lemma Z_of_byte_of_Z_map (l : list Z) :
  Forall (fun z => 0 <= z < 256) l ->
  map Py.Z_of_byte (map Py.byte_of_Z l) = l.
Proof.
  induction 1 as [| z l Hz Hl IH]; cbn [map]; [reflexivity |].
  now rewrite IH, Z_of_byte_of_Z, Z.mod_small.
Qed.

(** The reader takes the events of a track one by one and goes on with
    what follows them. *)
Lemma parse_events_track (ticks : list Z) (events : list event) (k : nat)
    (rest : list Z) :
  List.length ticks = List.length events ->
  Forall (fun n => 0 <= n) ticks ->
  Forall (fun ev => List.length (snd ev) = 3%nat
                    /\ Forall (fun z => 0 <= z < 256) (snd ev)) events ->
  parse_events (List.length events + k)
    (map Py.Z_of_byte (track_bytes ticks events) ++ rest)
  = match parse_events k rest with
    | Some (evs, rest') => Some (combine ticks (map snd events) ++ evs, rest')
    | None => None
    end.
Proof.
  revert events. induction ticks as [| n ticks IH];
    intros [| [t d] events] Hlen Hpos Hev; try discriminate.
  - cbn. now destruct (parse_events k rest) as [[evs rest'] |].
  - cbn [List.length] in Hlen. injection Hlen as Hlen.
    inversion Hpos as [| ? ? Hn Hpos']; subst.
    inversion Hev as [| ? ? [Hd3 Hdr] Hev']; subst. cbn [snd] in Hd3, Hdr.
    destruct d as [| d1 [| d2 [| d3 [| d4 d]]]]; try discriminate.
    cbn [track_bytes List.length Nat.add parse_events]. unfold event_bytes.
    rewrite !map_app, <- !app_assoc.
    rewrite (Z_of_byte_of_Z_map _ (encode_var_len_range n)).
    rewrite (Z_of_byte_of_Z_map _ Hdr).
    rewrite (decode_encode_var_len n _ Hn). cbn [app].
    rewrite (IH events Hlen Hpos' Hev').
    destruct (parse_events k rest) as [[evs rest'] |]; reflexivity.
Qed.

(** X11. The track that [write_midi_file] writes reads back.  When the
    call returns, every event has three data values and no delta is
    negative, reading the bytes after the length field as a
    variable-length delta and three bytes, once per event and once
    more, gives the deltas and the data of the sorted events, then the
    end-of-track event [(0, FF 2F 00)], and uses every byte. *)
Theorem track_reads_back (filename : string) (division : Z) (w w' : world)
    (content : list byte) (ticks : list Z) :
  write_midi_file filename division w = (Ok tt, w') ->
  files w' filename = Some content ->
  tick_deltas (ticks_per_second division) Py.fzero (events_obj w')
    = map Ok ticks ->
  Forall (fun n => 0 <= n) ticks ->
  Forall (fun ev => List.length (snd ev) = 3%nat) (events_obj w) ->
  parse_events (List.length (events_obj w') + 1)
    (map Py.Z_of_byte (skipn 22 content))
  = Some (combine ticks (map snd (events_obj w'))
          ++ [(0, [0xFF; 0x2F; 0x00])], []).
Proof.
  intros H Hf Ht Hpos H3.
  apply write_midi_file_inv in H as [Hev (content' & Hc & Hf')].
  rewrite Hf in Hf'. injection Hf' as <-.
  apply midi_bytes_inv in Hc as (ticks' & _ & Ht' & Hall & _ & ->).
  rewrite <- Hev in *.
  assert (ticks' = ticks) as ->.
  { rewrite Ht in Ht'. clear - Ht'. revert ticks' Ht'.
    induction ticks as [| n ticks IH]; intros [| n' ticks'] H;
      try discriminate; [reflexivity |].
    cbn [map] in H. injection H as -> H. f_equal. now apply IH. }
  change (skipn 22 (header_bytes division ++ MTrk
            ++ Py.be_bytes 4
                 (Z.of_nat
                    (List.length
                       (track_bytes ticks (events_obj w') ++ end_of_track)))
            ++ track_bytes ticks (events_obj w') ++ end_of_track))
    with (track_bytes ticks (events_obj w') ++ end_of_track).
  rewrite map_app.
  rewrite parse_events_track.
  - reflexivity.
  - rewrite <- (length_map (@Ok Z) ticks), <- Ht. apply tick_deltas_length.
  - exact Hpos.
  - assert (H3' : Forall (fun ev => List.length (snd ev) = 3%nat)
                    (events_obj w')).
    { rewrite Hev.
      apply (Permutation_Forall
               (list_sort_perm timestamp_of Py.flt (events_obj w))), H3. }
    rewrite Forall_forall in H3', Hall |- *. intros ev Hin.
    split; [now apply H3' | now apply Hall].
Qed.

Lemma track_reads_back_witness :
  parse_events
    (List.length
       (events_obj
          (snd (write_midi_file "output.mid"%string 96
                  (mkWorld one_note no_files)))) + 1)
    (map Py.Z_of_byte
       (skipn 22
          ([x4d; x54; x68; x64; x00; x00; x00; x06;
            x00; x00; x00; x01; x00; x60]
           ++ [x4d; x54; x72; x6b; x00; x00; x00; x08]
           ++ [x60; x90; x40; x7f; x00; xff; x2f; x00])))
  = Some (combine [96]
            (map snd
               (events_obj
                  (snd (write_midi_file "output.mid"%string 96
                          (mkWorld one_note no_files)))))
          ++ [(0, [0xFF; 0x2F; 0x00])], []).
Proof.
  apply (track_reads_back "output.mid"%string 96 (mkWorld one_note no_files)).
  - vm_compute. reflexivity.
  - vm_compute. reflexivity.
  - vm_compute. reflexivity.
  - repeat constructor. lia.
  - repeat constructor.
Defined.

End Track_round_trip.

(** ** The name of the file *)

Section Filename.

Lemma digit_inj (a b : Z) : digit a = digit b -> a mod 10 = b mod 10.
Proof.
  unfold digit. intros H. apply (f_equal N_of_ascii) in H.
  pose proof (Z.mod_pos_bound a 10 ltac:(lia)).
  pose proof (Z.mod_pos_bound b 10 ltac:(lia)).
  rewrite !N_ascii_embedding in H by lia. lia.
Qed.

Lemma append_inj_l (p s t : string) :
  (p ++ s)%string = (p ++ t)%string -> s = t.
Proof.
  induction p as [| c p IH]; cbn [append]; [trivial |].
  intros H. injection H as H. now apply IH.
Qed.

Lemma two_digits_eq (a b : Z) :
  0 <= a <= 99 -> 0 <= b <= 99 ->
  (a / 10) mod 10 = (b / 10) mod 10 -> a mod 10 = b mod 10 -> a = b.
Proof. intros Ha Hb H1 H0. Z.div_mod_to_equations. lia. Qed.

Lemma four_digits_eq (a b : Z) :
  0 <= a <= 9999 -> 0 <= b <= 9999 ->
  (a / 1000) mod 10 = (b / 1000) mod 10 ->
  (a / 100) mod 10 = (b / 100) mod 10 ->
  (a / 10) mod 10 = (b / 10) mod 10 -> a mod 10 = b mod 10 -> a = b.
Proof. intros Ha Hb H3 H2 H1 H0. Z.div_mod_to_equations. lia. Qed.

(** X12. Names made at different seconds are different: for the same
    prefix and extension, two clock readings (years 1000 to 9999) that
    give the same name are the same reading, so a recording never takes
    the name of one made at another second. *)
Theorem make_output_filename_injective (prefix extension : string)
    (now1 now2 : datetime) :
  datetime_ok now1 -> datetime_ok now2 ->
  make_output_filename prefix extension now1
    = make_output_filename prefix extension now2 ->
  now1 = now2.
Proof.
  intros (Hy1 & Hm1 & Hd1 & Hh1 & Hi1 & Hs1) (Hy2 & Hm2 & Hd2 & Hh2 & Hi2 & Hs2).
  destruct now1 as [y1 m1 d1 h1 i1 s1], now2 as [y2 m2 d2 h2 i2 s2].
  cbn [year month day hour minute second] in *.
  unfold make_output_filename, strftime_stamp. cbv zeta.
  intros H. apply append_inj_l in H.
  unfold pad4, pad2 in H. cbn [append] in H.
  injection H as Hy3 Hy2' Hy1' Hy0 Hm1' Hm0 Hd1' Hd0 Hh1' Hh0 Hi1' Hi0 Hs1' Hs0.
  apply digit_inj in Hy3, Hy2', Hy1', Hy0, Hm1', Hm0, Hd1', Hd0,
    Hh1', Hh0, Hi1', Hi0, Hs1', Hs0.
  assert (y1 = y2) as -> by (apply four_digits_eq; lia || assumption).
  assert (m1 = m2) as -> by (apply two_digits_eq; lia || assumption).
  assert (d1 = d2) as -> by (apply two_digits_eq; lia || assumption).
  assert (h1 = h2) as -> by (apply two_digits_eq; lia || assumption).
  assert (i1 = i2) as -> by (apply two_digits_eq; lia || assumption).
  assert (s1 = s2) as -> by (apply two_digits_eq; lia || assumption).
  reflexivity.
Qed.

Lemma make_output_filename_injective_witness :
  make_output_filename "recording" ".mid" (mkDatetime 2024 3 9 14 5 59)
    = "recording_20240309_140559.mid"%string /\
  mkDatetime 2024 3 9 14 5 59 = mkDatetime 2024 3 9 14 5 (60 - 1).
Proof.
  split; [reflexivity |].
  apply (make_output_filename_injective "recording" ".mid"
           (mkDatetime 2024 3 9 14 5 59) (mkDatetime 2024 3 9 14 5 (60 - 1)));
    [unfold datetime_ok; cbn; lia | unfold datetime_ok; cbn; lia | reflexivity].
Defined.

End Filename.

(** ** The capture loop and [main] *)

Section Capture.

Lemma after_window_events_false (evs : list pg_event) :
  after_window_events evs false = false.
Proof.
  unfold after_window_events. induction evs as [| e evs IH]; cbn [fold_left];
    [reflexivity |].
  destruct e as [| key |]; try exact IH. now destruct (key =? K_ESCAPE).
Qed.

Lemma after_window_events_true (f : frame) :
  after_window_events (window_events f) true = negb (stops f).
Proof.
  unfold stops, after_window_events.
  induction (window_events f) as [| e evs IH]; cbn [fold_left existsb];
    [reflexivity |].
  destruct e as [| key |]; cbn [orb].
  - apply after_window_events_false.
  - destruct (key =? K_ESCAPE); cbn [orb];
      [apply after_window_events_false | exact IH].
  - exact IH.
Qed.

Lemma capture_loop_running (start : Py.float) (fs : list frame)
    (recorded : list event) :
  Forall (fun f => stops f = false) fs ->
  capture_loop start fs true recorded
  = (true, recorded ++ flat_map (drained start) fs, []).
Proof.
  intros Hfs. revert recorded.
  induction Hfs as [| f fs Hf Hfs IH]; intros recorded;
    cbn [capture_loop flat_map].
  - now rewrite app_nil_r.
  - rewrite after_window_events_true, Hf. cbn [negb].
    now rewrite IH, app_assoc.
Qed.

Lemma capture_loop_stop (start : Py.float) (before after : list frame)
    (last : frame) (recorded : list event) :
  Forall (fun f => stops f = false) before -> stops last = true ->
  capture_loop start (before ++ last :: after) true recorded
  = (false, recorded ++ flat_map (drained start) (before ++ [last]), after).
Proof.
  intros Hb Hl. revert recorded.
  induction Hb as [| f fs Hf Hfs IH]; intros recorded;
    cbn [app capture_loop flat_map].
  - rewrite after_window_events_true, Hl. cbn [negb].
    rewrite app_nil_r. now destruct after.
  - rewrite after_window_events_true, Hf. cbn [negb].
    now rewrite IH, app_assoc.
Qed.

(** X13. The loop ends at the first round in which the window is closed
    or ESC is pressed, and not before.  What the device delivers in
    that round is still recorded; the rounds after it are not entered.
    The events recorded are those of the rounds run, in arrival order. *)
Theorem capture_loop_until_stop (start : Py.float)
    (before after : list frame) (last : frame) :
  Forall (fun f => stops f = false) before -> stops last = true ->
  capture_loop start (before ++ last :: after) true []
  = (false, flat_map (drained start) (before ++ [last]), after).
Proof. intros Hb Hl. apply (capture_loop_stop start before after last [] Hb Hl). Qed.

Lemma capture_loop_until_stop_witness :
  capture_loop Py.fzero
    ([mkFrame [OTHER; KEYDOWN 65] (Some ([([0x90; 0x40; 0x7F; 0], 12)],
                                         half_second))]
     ++ mkFrame [QUIT] (Some ([([0x80; 0x40; 0; 0], 30)], Py.dyadic 1 0))
     :: [mkFrame [] (Some ([([0x90; 0x43; 0x7F; 0], 40)], Py.dyadic 2 0))])
    true []
  = (false,
     flat_map (drained Py.fzero)
       ([mkFrame [OTHER; KEYDOWN 65] (Some ([([0x90; 0x40; 0x7F; 0], 12)],
                                            half_second))]
        ++ [mkFrame [QUIT] (Some ([([0x80; 0x40; 0; 0], 30)],
                                  Py.dyadic 1 0))]),
     [mkFrame [] (Some ([([0x90; 0x43; 0x7F; 0], 40)], Py.dyadic 2 0))]).
Proof.
  apply (capture_loop_until_stop Py.fzero
           [mkFrame [OTHER; KEYDOWN 65] (Some ([([0x90; 0x40; 0x7F; 0], 12)],
                                               half_second))]
           [mkFrame [] (Some ([([0x90; 0x43; 0x7F; 0], 40)], Py.dyadic 2 0))]
           (mkFrame [QUIT] (Some ([([0x80; 0x40; 0; 0], 30)],
                                  Py.dyadic 1 0)))).
  - repeat constructor.
  - reflexivity.
Defined.

(** X14. Without a QUIT or an ESC the program does not end: however many
    rounds the loop has run, [main] is still capturing, and nothing has
    been written. *)
Theorem main_runs_until_stopped (env : environment) :
  input_id env <> -1 ->
  Forall (fun f => stops f = false) (frames env) ->
  main env = Capturing (flat_map (drained (start_time env)) (frames env)).
Proof.
  intros Hid Hfs. unfold main.
  destruct (Z.eqb_spec (input_id env) (-1)) as [| _]; [contradiction |].
  now rewrite (capture_loop_running _ _ [] Hfs).
Qed.

Lemma main_runs_until_stopped_witness :
  main (mkEnvironment 0 Py.fzero
          [mkFrame [KEYDOWN 65]
             (Some ([([0x90; 0x40; 0x7F; 0], 12)], half_second))]
          (mkDatetime 2024 3 9 14 5 59) no_files)
  = Capturing
      (flat_map (drained Py.fzero)
         [mkFrame [KEYDOWN 65]
            (Some ([([0x90; 0x40; 0x7F; 0], 12)], half_second))]).
Proof.
  apply (main_runs_until_stopped
           (mkEnvironment 0 Py.fzero
              [mkFrame [KEYDOWN 65]
                 (Some ([([0x90; 0x40; 0x7F; 0], 12)], half_second))]
              (mkDatetime 2024 3 9 14 5 59) no_files)).
  - discriminate.
  - repeat constructor.
Defined.

Lemma drained_nil (start : Py.float) (fs : list frame) :
  Forall (fun f => match pending f with
                   | None => True
                   | Some (items, _) => items = []
                   end) fs ->
  flat_map (drained start) fs = [].
Proof.
  induction 1 as [| f fs Hf Hfs IH]; cbn [flat_map]; [reflexivity |].
  rewrite IH, app_nil_r. unfold drained.
  destruct (pending f) as [[items t] |]; [now subst | reflexivity].
Qed.

(** X15. When the device has delivered nothing in any round up to the
    one that stops the loop, [main] ends without calling
    [write_midi_file]: no file is written. *)
Theorem main_nothing_recorded (env : environment)
    (before after : list frame) (last : frame) :
  input_id env <> -1 ->
  frames env = before ++ last :: after ->
  Forall (fun f => stops f = false) before -> stops last = true ->
  Forall (fun f => match pending f with
                   | None => True
                   | Some (items, _) => items = []
                   end) (before ++ [last]) ->
  main env = NoEvents.
Proof.
  intros Hid Hfr Hb Hl Hnone. unfold main.
  destruct (Z.eqb_spec (input_id env) (-1)) as [| _]; [contradiction |].
  rewrite Hfr, (capture_loop_stop _ _ _ _ [] Hb Hl). cbn [app].
  now rewrite (drained_nil _ _ Hnone).
Qed.

Lemma main_nothing_recorded_witness :
  main (mkEnvironment 0 Py.fzero
          ([mkFrame [OTHER] None] ++ mkFrame [KEYDOWN 27] (Some ([], half_second))
           :: [mkFrame [] (Some ([([0x90; 0x40; 0x7F; 0], 12)],
                                 Py.dyadic 1 0))])
          (mkDatetime 2024 3 9 14 5 59) no_files)
  = NoEvents.
Proof.
  apply (main_nothing_recorded
           (mkEnvironment 0 Py.fzero
              ([mkFrame [OTHER] None]
               ++ mkFrame [KEYDOWN 27] (Some ([], half_second))
               :: [mkFrame [] (Some ([([0x90; 0x40; 0x7F; 0], 12)],
                                     Py.dyadic 1 0))])
              (mkDatetime 2024 3 9 14 5 59) no_files)
           [mkFrame [OTHER] None]
           [mkFrame [] (Some ([([0x90; 0x40; 0x7F; 0], 12)], Py.dyadic 1 0))]
           (mkFrame [KEYDOWN 27] (Some ([], half_second)))).
  - discriminate.
  - reflexivity.
  - repeat constructor.
  - reflexivity.
  - repeat constructor.
Defined.

(** The events recorded are those handed in and those drained in the
    rounds run. *)
Lemma capture_loop_recorded (start : Py.float) (fs : list frame)
    (running : bool) (recorded : list event) :
  exists run,
    snd (fst (capture_loop start fs running recorded))
    = recorded ++ flat_map (drained start) run /\
    fs = run ++ snd (capture_loop start fs running recorded).
Proof.
  revert running recorded. induction fs as [| f fs IH];
    intros running recorded; cbn [capture_loop].
  - exists []. cbn. now rewrite app_nil_r.
  - destruct running.
    + destruct (IH (after_window_events (window_events f) true)
                  (recorded ++ drained start f)) as (run & Hrec & Hfs).
      exists (f :: run). cbn [flat_map app].
      rewrite Hrec, <- app_assoc. split; [reflexivity | now f_equal].
    + exists []. cbn. now rewrite app_nil_r.
Qed.

(** X16. Every event the loop records has at most three data values:
    the slice [[:3]] drops a fourth one. *)
Theorem capture_loop_at_most_three (start : Py.float) (fs : list frame)
    (running : bool) :
  Forall (fun ev => (List.length (snd ev) <= 3)%nat)
    (snd (fst (capture_loop start fs running []))).
Proof.
  destruct (capture_loop_recorded start fs running []) as (run & -> & Hfs).
  cbn [app].
  apply Forall_flat_map, Forall_forall. intros f _. unfold drained.
  destruct (pending f) as [[items t] |]; [| constructor].
  apply Forall_map, Forall_forall. intros item _. cbn [snd].
  rewrite length_firstn. lia.
Qed.

(** X17. When the device delivers at least three values with each item
    (it delivers four), every event recorded has exactly three, as the
    track layout needs. *)
Theorem capture_loop_three_bytes (start : Py.float) (fs : list frame)
    (running : bool) :
  Forall (fun f => match pending f with
                   | None => True
                   | Some (items, _) =>
                       Forall (fun item : midi_item =>
                                 (3 <= List.length (fst item))%nat) items
                   end) fs ->
  Forall (fun ev => List.length (snd ev) = 3%nat)
    (snd (fst (capture_loop start fs running []))).
Proof.
  destruct (capture_loop_recorded start fs running []) as (run & -> & Hfs).
  cbn [app].
  intros Hall. rewrite Hfs in Hall. apply Forall_app in Hall as [Hall _].
  apply Forall_flat_map. eapply Forall_impl; [| exact Hall].
  intros f Hf. cbv beta in Hf. unfold drained.
  destruct (pending f) as [[items t] |]; [| constructor].
  apply Forall_map. eapply Forall_impl; [| exact Hf].
  intros item Hi. cbv beta in Hi. cbn [snd]. rewrite length_firstn. lia.
Qed.

Lemma capture_loop_three_bytes_witness :
  Forall (fun ev => List.length (snd ev) = 3%nat)
    (snd (fst (capture_loop Py.fzero
                 [mkFrame [] (Some ([([0x90; 0x40; 0x7F; 0], 12)],
                                    half_second));
                  mkFrame [QUIT] None]
                 true []))).
Proof.
  apply (capture_loop_three_bytes Py.fzero
           [mkFrame [] (Some ([([0x90; 0x40; 0x7F; 0], 12)], half_second));
            mkFrame [QUIT] None] true).
  repeat constructor.
Defined.

(** Two events at one time, in the sorted list: the events between
    them are those that were between them at that time. *)
Lemma sort_events_between (l1 l2 l3 : list event) (e1 e2 : event) :
  Forall no_nan (l1 ++ e1 :: l2 ++ e2 :: l3) ->
  Py.feq (timestamp_of e1) (timestamp_of e2) = true ->
  exists s1 s3,
    sort_events (l1 ++ e1 :: l2 ++ e2 :: l3)
    = s1 ++ e1 :: filter (at_time (timestamp_of e1)) l2 ++ e2 :: s3.
Proof.
  intros Hnn Heq.
  set (l := l1 ++ e1 :: l2 ++ e2 :: l3) in *.
  set (t := timestamp_of e1) in *.
  assert (Hn1 : Py.is_nan t = false).
  { apply Forall_app in Hnn as [_ Hnn]. now inversion Hnn. }
  assert (Hq1 : at_time t e1 = true) by now apply feq_refl.
  assert (Hq2 : at_time t e2 = true) by now apply feq_sym.
  pose proof (sort_events_stable t l) as Hst.
  unfold l in Hst at 2.
  rewrite filter_app in Hst. cbn [filter] in Hst. rewrite Hq1 in Hst.
  rewrite filter_app in Hst. cbn [filter] in Hst. rewrite Hq2 in Hst.
  apply filter_split in Hst as (s1 & r & Hl & _ & Hr).
  apply filter_split in Hr as (s2 & s3 & -> & Hs2 & _).
  assert (Hsorted : StronglySorted ts_le (sort_events l))
    by now apply sort_events_sorted.
  rewrite Hl in Hsorted.
  apply StronglySorted_app_r in Hsorted.
  apply StronglySorted_inv in Hsorted as [Hs2e2 He1].
  apply StronglySorted_before in Hs2e2.
  apply Forall_app in He1 as [He1 _].
  assert (Hall : Forall (fun ev => at_time t ev = true) s2).
  { rewrite Forall_forall in He1, Hs2e2 |- *. intros x Hx.
    unfold at_time. apply fle_sandwich with (timestamp_of e2);
      [now apply He1 | now apply Hs2e2 | exact Heq]. }
  assert (Hid : filter (at_time t) s2 = s2).
  { apply forallb_filter_id, forallb_forall.
    now rewrite <- Forall_forall. }
  rewrite Hid in Hs2. subst s2.
  now exists s1, s3.
Qed.

(** A run of events with one and the same time stays together, in its
    order, in the sorted list. *)
Lemma sort_events_block (l1 l3 bs : list event) (b0 : event) :
  Forall no_nan (l1 ++ b0 :: bs ++ l3) ->
  Forall (fun ev => timestamp_of ev = timestamp_of b0) bs ->
  exists s1 s3,
    sort_events (l1 ++ b0 :: bs ++ l3) = s1 ++ b0 :: bs ++ s3.
Proof.
  intros Hnn Hbs.
  destruct bs as [| b bs'].
  - cbn [app] in *.
    assert (Hin : In b0 (sort_events (l1 ++ b0 :: l3))).
    { apply (Permutation_in _ (list_sort_perm timestamp_of Py.flt _)).
      apply in_elt. }
    apply in_split in Hin as (s1 & s3 & Hs). now exists s1, s3.
  - destruct (exists_last (l := b :: bs') ltac:(discriminate))
      as (mid & bl & Hmid).
    rewrite Hmid in *. clear Hmid b bs'.
    assert (Hn0 : Py.is_nan (timestamp_of b0) = false).
    { apply Forall_app in Hnn as [_ Hnn]. now inversion Hnn. }
    apply Forall_app in Hbs as [Hmid Hbl].
    inversion Hbl as [| ? ? Hbl0 _]; subst.
    rewrite <- !app_assoc in *. cbn [app] in *.
    destruct (sort_events_between l1 mid l3 b0 bl Hnn) as (s1 & s3 & Hs).
    { rewrite Hbl0. now apply feq_refl. }
    assert (Hid : filter (at_time (timestamp_of b0)) mid = mid).
    { apply forallb_filter_id, forallb_forall. intros x Hx.
      rewrite Forall_forall in Hmid. unfold at_time.
      rewrite (Hmid x Hx). now apply feq_refl. }
    exists s1, s3. rewrite Hs, Hid, <- app_assoc. reflexivity.
Qed.

(** After a run of events all at the time of the one before them, the
    deltas go on from that time. *)
Lemma tick_deltas_run (tps : Z) (t : Py.float) (a b : list event) :
  0 <= tps < 2 ^ 53 -> Py.is_finite t = true ->
  Forall (fun ev => timestamp_of ev = t) a ->
  tick_deltas tps t (a ++ b)
  = map (fun _ => Ok 0) a ++ tick_deltas tps t b.
Proof.
  intros Htps Ft Ha.
  induction Ha as [| [t' d] a Ht' Ha IH]; cbn [app tick_deltas map];
    [reflexivity |].
  cbn [timestamp_of fst] in Ht'. subst t'.
  rewrite delta_ticks_zero, IH; try assumption; [reflexivity |].
  apply feq_refl. now apply finite_not_nan.
Qed.

(** A call that returns had only finite timestamps to work on. *)
Lemma write_midi_file_ok_finite (filename : string) (division : Z)
    (w : world) :
  fst (write_midi_file filename division w) = Ok tt ->
  Forall (fun ev => Py.is_finite (timestamp_of ev) = true) (events_obj w).
Proof.
  intros Hok. apply write_midi_file_ok_inv in Hok as (ticks & Ht & _).
  apply Forall_forall. intros ev Hin.
  destruct (Py.is_finite (timestamp_of ev)) eqn:Hf; [reflexivity | exfalso].
  revert Ht. apply tick_deltas_not_finite with ev; [| exact Hf].
  apply (Permutation_in _ (list_sort_perm timestamp_of Py.flt (events_obj w))),
    Hin.
Qed.

(** What [write_midi_file] writes for a list that holds a run of events
    with one and the same time: the run is together in the sorted list,
    and every event of it after the first has a delta of zero ticks. *)
Lemma written_run_zero_ticks (filename : string) (division : Z)
    (fs : string -> option (list byte)) (l1 l3 bs : list event)
    (b0 : event) (w' : world) :
  Forall (fun ev => timestamp_of ev = timestamp_of b0) bs ->
  write_midi_file filename division (mkWorld (l1 ++ (b0 :: bs) ++ l3) fs)
  = (Ok tt, w') ->
  exists content ticks s1 s3,
    files w' filename = Some content /\
    events_obj w' = s1 ++ (b0 :: bs) ++ s3 /\
    tick_deltas (ticks_per_second division) Py.fzero (events_obj w')
    = map Ok ticks /\
    skipn 22 content = track_bytes ticks (events_obj w') ++ end_of_track /\
    forall i, (i < List.length bs)%nat ->
      nth_error ticks (S (List.length s1) + i) = Some 0.
Proof.
  intros Hrun H.
  assert (Hfin : Forall (fun ev => Py.is_finite (timestamp_of ev) = true)
                   (l1 ++ (b0 :: bs) ++ l3)).
  { apply (write_midi_file_ok_finite filename division (mkWorld _ fs)).
    exact (f_equal fst H). }
  apply write_midi_file_inv in H as [Hev (content & Hc & Hf)].
  cbn [events_obj] in Hev, Hc. rewrite <- Hev in Hc.
  apply midi_bytes_inv in Hc as (ticks & Hd & Ht & _ & _ & ->).
  cbn [app] in Hfin, Hev.
  assert (HT : Py.is_finite (timestamp_of b0) = true).
  { apply Forall_app in Hfin as [_ Hfin]. now inversion Hfin. }
  destruct (sort_events_block l1 l3 bs b0) as (s1 & s3 & Hs).
  { eapply Forall_impl; [| exact Hfin]. intros ev. apply finite_not_nan. }
  { exact Hrun. }
  rewrite Hs in Hev.
  exists (header_bytes division ++ MTrk
          ++ Py.be_bytes 4
               (Z.of_nat
                  (List.length
                     (track_bytes ticks (events_obj w') ++ end_of_track)))
          ++ track_bytes ticks (events_obj w') ++ end_of_track), ticks, s1, s3.
  split; [exact Hf |]. split; [exact Hev |]. split; [exact Ht |].
  split; [reflexivity |].
  intros i Hi.
  assert (Hnth : nth_error (map (@Ok Z) ticks) (S (List.length s1) + i)
                 = Some (Ok 0)).
  { rewrite <- Ht, Hev.
    rewrite tick_deltas_app.
    rewrite (tick_deltas_run _ (timestamp_of b0) bs s3);
      [| unfold ticks_per_second; change (2 ^ 53) with 9007199254740992; lia
       | exact HT | exact Hrun].
    rewrite nth_error_app2
      by (rewrite tick_deltas_length, length_app; cbn [List.length]; lia).
    rewrite tick_deltas_length, length_app. cbn [List.length].
    replace (S (List.length s1) + i - (List.length s1 + 1))%nat with i by lia.
    rewrite nth_error_app1 by (rewrite length_map; exact Hi).
    rewrite nth_error_map.
    destruct (nth_error bs i) eqn:Hn; [reflexivity |].
    apply nth_error_None in Hn. lia. }
  rewrite nth_error_map in Hnth.
  destruct (nth_error ticks (S (List.length s1) + i)) as [n |];
    [| discriminate].
  cbn [option_map] in Hnth. now injection Hnth as ->.
Qed.

(** X18. The events drained in one round all carry the time of that
    round, and the track shows it.  Whenever [write_midi_file] writes
    the file of a recording that holds the events of a round, those
    events are together and in their order in the sorted list, and in
    the track written every one of them after the first has a delta of
    zero ticks.  (A call that returns had only finite timestamps, so
    the order of the sorted list is the one [list.sort] gives.) *)
Theorem drained_together_zero_ticks (filename : string) (division : Z)
    (fs : string -> option (list byte)) (start now : Py.float)
    (l1 l3 : list event) (evs : list pg_event)
    (item : midi_item) (items : list midi_item) (w' : world) :
  write_midi_file filename division
    (mkWorld
       (l1 ++ drained start (mkFrame evs (Some (item :: items, now))) ++ l3)
       fs)
  = (Ok tt, w') ->
  exists content ticks s1 s3,
    files w' filename = Some content /\
    events_obj w'
    = s1 ++ drained start (mkFrame evs (Some (item :: items, now))) ++ s3 /\
    tick_deltas (ticks_per_second division) Py.fzero (events_obj w')
    = map Ok ticks /\
    skipn 22 content = track_bytes ticks (events_obj w') ++ end_of_track /\
    forall i, (i < List.length items)%nat ->
      nth_error ticks (S (List.length s1) + i) = Some 0.
Proof.
  unfold drained. cbn [pending map]. intros H.
  apply written_run_zero_ticks in H
    as (content & ticks & s1 & s3 & Hf & Hev & Ht & Hc & Hz).
  - exists content, ticks, s1, s3.
    repeat (split; [assumption |]).
    intros i Hi. apply Hz. now rewrite length_map.
  - apply Forall_map, Forall_forall. now intros i _.
Qed.

Lemma drained_together_zero_ticks_witness :
  exists content ticks s1 s3,
    files
      (snd (write_midi_file "output.mid"%string 96
              (mkWorld
                 ([(Py.dyadic 1 0, [0x80; 0x3C; 0x00])]
                  ++ drained Py.fzero
                       (mkFrame []
                          (Some (([0x90; 0x3C; 0x64; 0], 7)
                                 :: [([0x90; 0x40; 0x64; 0], 7);
                                     ([0x90; 0x43; 0x64; 0], 8)],
                                 half_second)))
                  ++ [])
                 no_files)))
      "output.mid"%string = Some content /\
    events_obj
      (snd (write_midi_file "output.mid"%string 96
              (mkWorld
                 ([(Py.dyadic 1 0, [0x80; 0x3C; 0x00])]
                  ++ drained Py.fzero
                       (mkFrame []
                          (Some (([0x90; 0x3C; 0x64; 0], 7)
                                 :: [([0x90; 0x40; 0x64; 0], 7);
                                     ([0x90; 0x43; 0x64; 0], 8)],
                                 half_second)))
                  ++ [])
                 no_files)))
    = s1 ++ drained Py.fzero
              (mkFrame []
                 (Some (([0x90; 0x3C; 0x64; 0], 7)
                        :: [([0x90; 0x40; 0x64; 0], 7);
                            ([0x90; 0x43; 0x64; 0], 8)],
                        half_second)))
         ++ s3 /\
    tick_deltas (ticks_per_second 96) Py.fzero
      (events_obj
         (snd (write_midi_file "output.mid"%string 96
                 (mkWorld
                    ([(Py.dyadic 1 0, [0x80; 0x3C; 0x00])]
                     ++ drained Py.fzero
                          (mkFrame []
                             (Some (([0x90; 0x3C; 0x64; 0], 7)
                                    :: [([0x90; 0x40; 0x64; 0], 7);
                                        ([0x90; 0x43; 0x64; 0], 8)],
                                    half_second)))
                     ++ [])
                    no_files))))
    = map Ok ticks /\
    skipn 22 content
    = track_bytes ticks
        (events_obj
           (snd (write_midi_file "output.mid"%string 96
                   (mkWorld
                      ([(Py.dyadic 1 0, [0x80; 0x3C; 0x00])]
                       ++ drained Py.fzero
                            (mkFrame []
                               (Some (([0x90; 0x3C; 0x64; 0], 7)
                                      :: [([0x90; 0x40; 0x64; 0], 7);
                                          ([0x90; 0x43; 0x64; 0], 8)],
                                      half_second)))
                       ++ [])
                      no_files))))
      ++ end_of_track /\
    forall i,
      (i < List.length [([0x90; 0x40; 0x64; 0], 7);
                        ([0x90; 0x43; 0x64; 0], 8)])%nat ->
      nth_error ticks (S (List.length s1) + i) = Some 0.
Proof.
  apply (drained_together_zero_ticks "output.mid"%string 96 no_files
           Py.fzero half_second
           [(Py.dyadic 1 0, [0x80; 0x3C; 0x00])] [] []
           ([0x90; 0x3C; 0x64; 0], 7)
           [([0x90; 0x40; 0x64; 0], 7); ([0x90; 0x43; 0x64; 0], 8)]).
  vm_compute. reflexivity.
Defined.

(** X19. When [main] ends with a recording, the loop has stopped and
    [write_midi_file] was called once, on the very list the loop
    recorded: what was drained, in arrival order, in the rounds that
    were run.  That list is not empty, the call was made with 96 ticks
    to the quarter note under the name [recording_<YYYYMMDD_HHMMSS>.mid]
    made from the clock, and every other file is as it was. *)
Theorem main_saved (env : environment) (filename : string)
    (r : result unit) (w : world) :
  main env = Saved filename r w ->
  input_id env <> -1 /\
  filename = make_output_filename "recording" ".mid" (end_clock env) /\
  (exists recorded run rest,
     capture_loop (start_time env) (frames env) true []
     = (false, recorded, rest) /\
     frames env = run ++ rest /\
     recorded = flat_map (drained (start_time env)) run /\
     recorded <> [] /\
     write_midi_file filename 96 (mkWorld recorded (disk env)) = (r, w)) /\
  forall other, other <> filename -> files w other = disk env other.
Proof.
  unfold main.
  destruct (Z.eqb_spec (input_id env) (-1)) as [| Hid]; [discriminate |].
  destruct (capture_loop_recorded (start_time env) (frames env) true [])
    as (run & Hrec & Hrun).
  destruct (capture_loop _ _ true []) as [[running recorded] rest].
  cbn [fst snd app] in Hrec, Hrun.
  destruct running; [discriminate |].
  destruct recorded as [| ev recorded]; [discriminate |].
  destruct (write_midi_file _ 96 _) as [r' w'] eqn:Hw.
  intros H. injection H as <- <- <-.
  split; [exact Hid |]. split; [reflexivity |]. split.
  - exists (ev :: recorded), run, rest.
    split; [reflexivity |]. split; [exact Hrun |]. split; [exact Hrec |].
    split; [discriminate | exact Hw].
  - intros other Hne.
    unfold write_midi_file in Hw.
    destruct (midi_bytes _ 96); injection Hw as <- <-;
      cbn [write_file set_events files]; [| reflexivity].
    apply String.eqb_neq in Hne. now rewrite Hne.
Qed.

Lemma main_saved_witness :
  let env :=
    mkEnvironment 0 Py.fzero
      [mkFrame [OTHER] (Some ([([0x90; 0x40; 0x7F; 0], 12)], half_second));
       mkFrame [QUIT] (Some ([([0x80; 0x40; 0; 0], 30)], Py.dyadic 1 0));
       mkFrame [] (Some ([([0x90; 0x43; 0x7F; 0], 40)], Py.dyadic 2 0))]
      (mkDatetime 2024 3 9 14 5 59) no_files in
  let filename := "recording_20240309_140559.mid"%string in
  let w :=
    snd (write_midi_file filename 96
           (mkWorld [(half_second, [0x90; 0x40; 0x7F]);
                     (Py.dyadic 1 0, [0x80; 0x40; 0])] no_files)) in
  input_id env <> -1 /\
  filename = make_output_filename "recording" ".mid" (end_clock env) /\
  (exists recorded run rest,
     capture_loop (start_time env) (frames env) true []
     = (false, recorded, rest) /\
     frames env = run ++ rest /\
     recorded = flat_map (drained (start_time env)) run /\
     recorded <> [] /\
     write_midi_file filename 96 (mkWorld recorded (disk env)) = (Ok tt, w)) /\
  forall other, other <> filename -> files w other = disk env other.
Proof.
  apply (main_saved
           (mkEnvironment 0 Py.fzero
              [mkFrame [OTHER]
                 (Some ([([0x90; 0x40; 0x7F; 0], 12)], half_second));
               mkFrame [QUIT]
                 (Some ([([0x80; 0x40; 0; 0], 30)], Py.dyadic 1 0));
               mkFrame []
                 (Some ([([0x90; 0x43; 0x7F; 0], 40)], Py.dyadic 2 0))]
              (mkDatetime 2024 3 9 14 5 59) no_files)
           "recording_20240309_140559.mid"%string (Ok tt)).
  vm_compute. reflexivity.
Defined.

End Capture.

(** ** The order of the list handed in *)

Section Order_irrelevant.

Lemma flt_trans (a b c : Py.float) :
  Py.flt a b = true -> Py.flt b c = true -> Py.flt a c = true.
Proof.
  unfold Py.flt, SFltb.
  destruct a as [[] | [] | | [] ma ea], b as [[] | [] | | [] mb eb],
    c as [[] | [] | | [] mc ec];
    cbn; try easy; split_compares; cbn; try easy; try lia.
Qed.

(** Two floats that are not equal and not NaN are one below the other. *)
Lemma flt_or_flt (a b : Py.float) :
  Py.is_nan a = false -> Py.is_nan b = false -> Py.feq a b = false ->
  Py.flt a b = true \/ Py.flt b a = true.
Proof.
  unfold Py.flt, Py.feq, SFltb, SFeqb. rewrite (SFcompare_antisym a b).
  destruct a as [[] | [] | | [] ma ea], b as [[] | [] | | [] mb eb];
    try discriminate; cbn; auto;
    destruct (ea ?= eb); cbn; auto;
    destruct (Pos.compare_cont Eq ma mb); cbn; auto.
Qed.

(** Two insertions, one of an event before the other's time, can be
    done in either order. *)
Lemma insert_insert (x y : event) (s : list event) :
  Py.flt (timestamp_of x) (timestamp_of y) = true ->
  insert timestamp_of Py.flt x (insert timestamp_of Py.flt y s)
  = insert timestamp_of Py.flt y (insert timestamp_of Py.flt x s).
Proof.
  intros Hxy. pose proof (flt_asym _ _ Hxy) as Hyx.
  induction s as [| z s IH]; cbn [insert].
  - now rewrite Hxy, Hyx.
  - destruct (Py.flt (timestamp_of z) (timestamp_of y)) eqn:Hzy,
      (Py.flt (timestamp_of z) (timestamp_of x)) eqn:Hzx; cbn [insert];
      rewrite ?Hzy, ?Hzx, ?Hxy, ?Hyx; cbn [insert]; rewrite ?Hzy, ?Hzx.
    + now rewrite IH.
    + reflexivity.
    + rewrite (flt_trans _ _ _ Hzx Hxy) in Hzy. discriminate.
    + reflexivity.
Qed.

(** At most one event of the list is at the time [t]. *)
Lemma distinct_times_count (l : list event) (t : Py.float) :
  distinct_times l = true ->
  (List.length (filter (at_time t) l) <= 1)%nat.
Proof.
  induction l as [| x l IH]; cbn [distinct_times filter]; intros H;
    [cbn; lia |].
  apply andb_prop in H as [Hx Hl]. specialize (IH Hl).
  destruct (at_time t x) eqn:Hxt; [| exact IH].
  cbn [List.length].
  assert (Hnone : filter (at_time t) l = []).
  { clear IH Hl. induction l as [| y l IHl]; [reflexivity |].
    cbn [forallb] in Hx. apply andb_prop in Hx as [Hxy Hx].
    cbn [filter]. destruct (at_time t y) eqn:Hyt; [| now apply IHl].
    unfold at_time in Hxt, Hyt.
    rewrite (feq_trans _ _ _ Hxt (feq_sym _ _ Hyt)) in Hxy. discriminate. }
  rewrite Hnone. cbn. lia.
Qed.

Lemma filter_length_perm (t : Py.float) (l l' : list event) :
  Permutation l l' ->
  List.length (filter (at_time t) l) = List.length (filter (at_time t) l').
Proof.
  induction 1 as [| x l l' Hp IH | x y l | l l' l'' _ IH1 _ IH2];
    cbn [filter].
  - reflexivity.
  - destruct (at_time t x); cbn [List.length]; now rewrite IH.
  - now destruct (at_time t x), (at_time t y).
  - now rewrite IH1.
Qed.

(** With no NaN and no two events at one time, the sorted list does not
    depend on the order of the list. *)
Lemma sort_events_perm (l l' : list event) :
  Permutation l l' ->
  Forall no_nan l ->
  (forall t, (List.length (filter (at_time t) l) <= 1)%nat) ->
  sort_events l = sort_events l'.
Proof.
  unfold sort_events.
  induction 1 as [| x l l' Hp IH | x y l | l l' l'' Hp1 IH1 Hp2 IH2];
    intros Hnn Hone; cbn [list_sort].
  - reflexivity.
  - rewrite IH; [reflexivity | now inversion Hnn |].
    intros t. specialize (Hone t). cbn [filter] in Hone.
    destruct (at_time t x); cbn [List.length] in Hone; lia.
  - inversion Hnn as [| ? ? Hy Hnn']; subst.
    inversion Hnn' as [| ? ? Hx _]; subst.
    assert (Hne : Py.feq (timestamp_of x) (timestamp_of y) = false).
    { specialize (Hone (timestamp_of x)). cbn [filter] in Hone.
      destruct (Py.feq (timestamp_of x) (timestamp_of y)) eqn:Hxy;
        [| reflexivity].
      unfold at_time in Hone at 1 2.
      rewrite (feq_sym _ _ Hxy), (feq_refl _ Hx) in Hone.
      cbn [List.length] in Hone. lia. }
    destruct (flt_or_flt _ _ Hx Hy Hne) as [Hlt | Hlt].
    + symmetry. now apply insert_insert.
    + now apply insert_insert.
  - rewrite IH1, IH2; try assumption; [reflexivity | |].
    + apply (Permutation_Forall Hp1), Hnn.
    + intros t. rewrite <- (filter_length_perm t _ _ Hp1). apply Hone.
Qed.

(** X20. When no timestamp is a NaN and no two events have the same
    time, the order of the list handed in does not matter: two lists
    with the same events make [write_midi_file] end the same way, write
    the same bytes and leave the same sorted list. *)
Theorem write_midi_file_order_irrelevant (filename : string) (division : Z)
    (events events' : list event) (fs : string -> option (list byte)) :
  Permutation events events' ->
  Forall (fun ev => Py.is_nan (timestamp_of ev) = false) events ->
  distinct_times events = true ->
  write_midi_file filename division (mkWorld events fs)
  = write_midi_file filename division (mkWorld events' fs).
Proof.
  intros Hp Hnn Hd. unfold write_midi_file.
  cbn [set_events events_obj files].
  rewrite (sort_events_perm events events' Hp Hnn);
    [reflexivity |].
  intros t. now apply distinct_times_count.
Qed.

Lemma write_midi_file_order_irrelevant_witness :
  write_midi_file "output.mid"%string 96
    (mkWorld [(Py.dyadic 1 0, [0x90; 0x3C; 0x64]);
              (half_second, [0x90; 0x40; 0x7F])] no_files)
  = write_midi_file "output.mid"%string 96
      (mkWorld [(half_second, [0x90; 0x40; 0x7F]);
                (Py.dyadic 1 0, [0x90; 0x3C; 0x64])] no_files).
Proof.
  apply (write_midi_file_order_irrelevant "output.mid"%string 96
           [(Py.dyadic 1 0, [0x90; 0x3C; 0x64]);
            (half_second, [0x90; 0x40; 0x7F])]
           [(half_second, [0x90; 0x40; 0x7F]);
            (Py.dyadic 1 0, [0x90; 0x3C; 0x64])] no_files).
  - apply perm_swap.
  - repeat constructor.
  - reflexivity.
Defined.

End Order_irrelevant.
